(** * Attack_detecktion.py: a log-tailing intrusion detector

    A shallow embedding of [src/Python/Attack_detecktion.py] and the
    properties of its parser, its per-window analysis, its log tail and
    its scheduler loop.

    Conventions of the embedding.
    - A Python [str] is a [string]; every [ascii] stands for the code
      point of the same number (code points below 256).
    - A Python exception is a value of [exn]; a call that may raise
      returns an [outcome].
    - Side effects (logging, clocks, files, firewall, mail) are threaded
      through an explicit [World]. *)

From Stdlib Require Import List String Ascii ZArith Lia Bool Arith.
From Stdlib Require Import DecimalString Permutation.
Import ListNotations.

Open Scope string_scope.
Open Scope list_scope.
Open Scope nat_scope.

(** String concatenation, Python's [+] on [str] (and what an f-string
    does with its pieces). *)
Infix "+++" := String.append (right associativity, at level 60).

(* ================================================================= *)
(** ** Python strings *)

Module PyStr.

(** [str.isspace] on one character, for code points below 256:
    TAB..CR, FS..US, SPACE, NEL (0x85) and NBSP (0xA0). *)
Definition isspace (c : ascii) : bool :=
  let n := nat_of_ascii c in
  ((9 <=? n) && (n <=? 13)) || ((28 <=? n) && (n <=? 32))
  || (n =? 133) || (n =? 160).

(** [s.lstrip()] *)
Fixpoint lstrip (s : string) : string :=
  match s with
  | EmptyString => EmptyString
  | String c s' => if isspace c then lstrip s' else s
  end.

(** [s.rstrip()] *)
Fixpoint rstrip (s : string) : string :=
  match s with
  | EmptyString => EmptyString
  | String c s' =>
      match rstrip s' with
      | EmptyString => if isspace c then EmptyString else String c EmptyString
      | r => String c r
      end
  end.

(** [s.strip()] *)
Definition strip (s : string) : string := rstrip (lstrip s).

(** [s.split(sep)] for a one-character separator: never returns an
    empty list, and keeps empty fields. *)
Fixpoint split (sep : ascii) (s : string) : list string :=
  match s with
  | EmptyString => [EmptyString]
  | String c s' =>
      if Ascii.eqb c sep then EmptyString :: split sep s'
      else match split sep s' with
           | [] => [String c EmptyString]
           | field :: fields => String c field :: fields
           end
  end.

(** [sep.join(l)] *)
Fixpoint join (sep : string) (l : list string) : string :=
  match l with
  | [] => EmptyString
  | [x] => x
  | x :: l' => x +++ sep +++ join sep l'
  end.

(** [str(n)] for a non-negative [int]. *)
Definition of_nat (n : nat) : string :=
  NilEmpty.string_of_uint (Nat.to_uint n).

(** Every character of [s] is white space. *)
Fixpoint all_space (s : string) : bool :=
  match s with
  | EmptyString => true
  | String c s' => isspace c && all_space s'
  end.

(** First and last character of a string, when it has one. *)
Definition first (s : string) : option ascii :=
  match s with
  | EmptyString => None
  | String c _ => Some c
  end.

Fixpoint last (s : string) : option ascii :=
  match s with
  | EmptyString => None
  | String c EmptyString => Some c
  | String _ s' => last s'
  end.

Definition LF : ascii := ascii_of_nat 10.
Definition CR : ascii := ascii_of_nat 13.
Definition nl : string := String LF EmptyString.

End PyStr.

(* ================================================================= *)
(** ** Exceptions and logging *)

(** The two classes of raised values that [except Exception] tells
    apart: instances of [Exception] (with their class name and message)
    and the others ([KeyboardInterrupt], [SystemExit], ...). *)
Inductive exn : Type :=
| Exception (cls msg : string)
| BaseException (cls : string).

Definition isinstance_Exception (e : exn) : bool :=
  match e with
  | Exception _ _ => true
  | BaseException _ => false
  end.

(** [str(e)], as interpolated by [f"{e}"]. *)
Definition str_exn (e : exn) : string :=
  match e with
  | Exception _ msg => msg
  | BaseException _ => EmptyString
  end.

Inductive outcome (A : Type) : Type :=
| Returns (a : A)
| Raises (e : exn).
Arguments Returns {A} a.
Arguments Raises {A} e.

(** What the two library parsers used by [parse_line] do:
    [datetime.fromisoformat] and [int] return a value or raise
    [ValueError]. *)
Inductive parsed (A : Type) : Type :=
| Value (a : A)
| ValueError (msg : string).
Arguments Value {A} a.
Arguments ValueError {A} msg.

Inductive level : Type := INFO | WARNING | ERROR.

Definition log_entry : Type := level * string.

(* ================================================================= *)
(** ** collections.Counter *)

(** A [Counter] is a [dict]: keys compared with [==], iterated in
    insertion order.  It is embedded as an association list in insertion
    order; [incr c k] is [c[k] += 1], where a missing key counts 0 and is
    inserted last. *)
Module Counter.
Section Ops.

Context {K : Type} (K_dec : forall x y : K, {x = y} + {x <> y}).

Definition t : Type := list (K * nat).

Definition empty : t := [].

(** [c[k]] (0 for a missing key) *)
Fixpoint get (c : t) (k : K) : nat :=
  match c with
  | [] => 0
  | (k', n) :: c' => if K_dec k k' then n else get c' k
  end.

(** [c[k] += 1] *)
Fixpoint incr (c : t) (k : K) : t :=
  match c with
  | [] => [(k, 1)]
  | (k', n) :: c' =>
      if K_dec k k' then (k', S n) :: c' else (k', n) :: incr c' k
  end.

(** [c.items()] *)
Definition items (c : t) : list (K * nat) := c.

Definition keys (c : t) : list K := map fst c.

(** The counter after [for k in l: c[k] += 1], from an empty one. *)
Definition count_all (l : list K) : t := fold_left incr l empty.

(** Keys are distinct and every stored count is positive. *)
Definition wf (c : t) : Prop :=
  NoDup (keys c) /\ Forall (fun kn => 0 < snd kn) c.

(** The test [key == k] on an item. *)
Definition has_key (k : K) (kn : K * nat) : bool :=
  if K_dec (fst kn) k then true else false.

End Ops.
End Counter.

(* ================================================================= *)
(** ** Flagged events *)

(** The port column of an event row: the record's port, or [''] on a
    threshold event. *)
Inductive port_field : Type :=
| PortInt (port : Z)
| PortBlank.

(** One row [(timestamp, src, dst, port, proto, count, reason)] of the
    list returned by [analyze_window]. *)
Record event : Type := Event {
  ev_timestamp : string;
  ev_src : string;
  ev_dst : string;
  ev_port : port_field;
  ev_proto : string;
  ev_count : nat;
  ev_reason : string
}.

(* ================================================================= *)
(** ** The world and the monad of effects *)

(** [w_log]: what [logging] has emitted so far; [w_now]: how many times
    [datetime.datetime.now] has been called; [w_time]: how many times
    [time.time] has been called; [w_ext]: the state of the file system,
    the firewall and the mail transport. *)
Record World (Ext : Type) : Type := MkWorld {
  w_log : list log_entry;
  w_now : nat;
  w_time : nat;
  w_ext : Ext
}.
Arguments MkWorld {Ext}.
Arguments w_log {Ext}.
Arguments w_now {Ext}.
Arguments w_time {Ext}.
Arguments w_ext {Ext}.

(** A computation: from a world to a returned value or a raised
    exception, and the world it leaves. *)
Definition M (Ext A : Type) : Type := World Ext -> outcome A * World Ext.

(** What the program takes from its platform: the library functions it
    calls, the clocks it reads and the input/output it performs. *)
Class Platform : Type := {
  (** [datetime.datetime] values *)
  datetime : Type;
  (** [datetime.datetime.fromisoformat] *)
  fromisoformat : string -> parsed datetime;
  (** [ts.isoformat()] *)
  isoformat : datetime -> string;
  (** [int(s)] on a [str] *)
  py_int : string -> parsed Z;
  (** the value of the [n]-th call of [datetime.datetime.now(timezone.utc)] *)
  utcnow : nat -> datetime;
  (** [time.time()] values and the value of its [n]-th call *)
  Time : Type;
  time_time : nat -> Time;
  (** [elapsed_ge now start d]: [now - start >= d] *)
  elapsed_ge : Time -> Time -> Z -> bool;
  (** external state and the primitives acting on it *)
  Ext : Type;
  os_path_exists : string -> M Ext bool;
  create_file : string -> M Ext unit;
  csv_append : string -> list (list string) -> list event -> M Ext unit;
  ufw_deny : string -> M Ext unit;
  smtp_send : bool -> string -> string -> M Ext unit;
  SMTP_USER : string;
  SMTP_PASS : string;
  (** the order in which a [set] of strings built from a list iterates *)
  set_iter : list string -> list string
}.

Section Program.

Context {P : Platform}.

Local Abbreviation world := (World Ext).
Local Abbreviation m := (M Ext).

Definition ret {A : Type} (a : A) : m A := fun w => (Returns a, w).

Definition bind {A B : Type} (c : m A) (f : A -> m B) : m B :=
  fun w =>
    match c w with
    | (Returns a, w') => f a w'
    | (Raises e, w') => (Raises e, w')
    end.

Definition raise {A : Type} (e : exn) : m A := fun w => (Raises e, w).

(** [try: body / except Exception as e: handler e]: an instance of
    [Exception] is handled, anything else propagates. *)
Definition try_except {A : Type} (body : m A) (handler : exn -> m A) : m A :=
  fun w =>
    match body w with
    | (Returns a, w') => (Returns a, w')
    | (Raises e, w') =>
        if isinstance_Exception e then handler e w' else (Raises e, w')
    end.

(** A library parser called from the program. *)
Definition call {A : Type} (r : parsed A) : m A :=
  match r with
  | Value a => ret a
  | ValueError msg => raise (Exception "ValueError" msg)
  end.

Definition add_log (entry : log_entry) (w : world) : world :=
  MkWorld (w_log w ++ [entry]) (w_now w) (w_time w) (w_ext w).

Definition logging (lv : level) (msg : string) : m unit :=
  fun w => (Returns tt, add_log (lv, msg) w).

(** [datetime.datetime.now(datetime.timezone.utc)] *)
Definition datetime_now : m datetime :=
  fun w =>
    (Returns (utcnow (w_now w)),
     MkWorld (w_log w) (S (w_now w)) (w_time w) (w_ext w)).

(** [time.time()] *)
Definition time_now : m Time :=
  fun w =>
    (Returns (time_time (w_time w)),
     MkWorld (w_log w) (w_now w) (S (w_time w)) (w_ext w)).

(** [for x in l: body x], the loop variables carried as [acc]. *)
Fixpoint for_each {A S : Type} (l : list A) (body : S -> A -> m S) (acc : S)
  : m S :=
  match l with
  | [] => ret acc
  | x :: l' => bind (body acc x) (for_each l' body)
  end.

End Program.

Declare Scope py_scope.
Delimit Scope py_scope with py.
Notation "x <- c ;; k" := (bind c (fun x => k))
  (at level 61, c at next level, right associativity) : py_scope.
Notation "c ;;; k" := (bind c (fun _ => k))
  (at level 61, right associativity) : py_scope.
Open Scope py_scope.

(* ================================================================= *)
(** ** Configuration *)

Definition LOG_FILE : string := "network_traffic.log".
Definition REPORT_FILE : string := "attack_report.csv".
Definition ANALYSIS_INTERVAL : Z := 300.
Definition CONNECTION_THRESHOLD : nat := 100.
Definition VOLUME_THRESHOLD : nat := 100.

(** [set(range(1, 1024)) - {22, 80, 443}] *)
Definition UNUSUAL_PORTS : list Z :=
  filter (fun p => negb (existsb (Z.eqb p) [22; 80; 443]%Z))
         (map Z.of_nat (seq 1 1023)).

(** [port in UNUSUAL_PORTS] *)
Definition in_UNUSUAL_PORTS (port : Z) : bool :=
  existsb (Z.eqb port) UNUSUAL_PORTS.

Definition FROM_ADDR : string := "root@agent-ifema".
Definition ADMIN_EMAIL : string := "henrietteheikki@hotmail.com".

(* ================================================================= *)
(** ** The program *)

Section Detector.

Context {P : Platform}.

Local Abbreviation m := (M Ext).

(** The tuple [(ts, src, dst, port, proto)] returned by [parse_line]. *)
Record record : Type := Rec {
  rec_ts : datetime;
  rec_src : string;
  rec_dst : string;
  rec_port : Z;
  rec_proto : string
}.

(** *** parse_line *)

(** [parts[i]] on the list of fields. *)
Definition part (parts : list string) (i : nat) : string :=
  nth i parts EmptyString.

(** [[p.strip() for p in line.split(',')]] *)
Definition fields (line : string) : list string :=
  map PyStr.strip (PyStr.split "," line).

Definition parse_line (line : string) : m (option record) :=
  let parts := fields line in
  if negb (List.length parts =? 5) then
    logging WARNING ("Ogiltigt format, hoppar över: " +++ line) ;;;
    ret None
  else
    try_except
      (ts <- call (fromisoformat (part parts 0)) ;;
       let src := part parts 1 in
       let dst := part parts 2 in
       port <- call (py_int (part parts 3)) ;;
       let proto := part parts 4 in
       ret (Some (Rec ts src dst port proto)))
      (fun e =>
         logging WARNING ("Parsingfel: " +++ str_exn e +++ " -- " +++ line) ;;;
         ret None).

(** *** analyze_window *)

Definition string_pair_dec (x y : string * string) : {x = y} + {x <> y}.
Proof. decide equality; apply string_dec. Defined.

(** An element of [port_flags]: the record and its reason. *)
Definition port_flag : Type := record * string.

(** An element of [flagged]: [(src, cnt, reason)]. *)
Definition flag : Type := string * nat * string.

(** The variables [src_count], [dst_count] and [port_flags]. *)
Definition tallies : Type :=
  Counter.t (K := string) * Counter.t (K := string * string) * list port_flag.

(** Step 1, one turn of the loop over [records]. *)
Definition tally (st : tallies) (r : record) : tallies :=
  let '(src_count, dst_count, port_flags) := st in
  let src_count := Counter.incr string_dec src_count (rec_src r) in
  let dst_count :=
    Counter.incr string_pair_dec dst_count (rec_src r, rec_dst r) in
  if in_UNUSUAL_PORTS (rec_port r)
  then (src_count, dst_count, port_flags ++ [(r, "Unusual port")])
  else (src_count, dst_count, port_flags).

(** Step 2, one turn of each of the two loops over the counters. *)
Definition flag_source (flagged : list flag) (item : string * nat)
  : list flag :=
  let '(src, cnt) := item in
  if CONNECTION_THRESHOLD <? cnt
  then flagged ++ [(src, cnt, "High connection count")]
  else flagged.

Definition flag_pair (flagged : list flag) (item : string * string * nat)
  : list flag :=
  let '((src, dst), cnt) := item in
  if VOLUME_THRESHOLD <? cnt
  then flagged ++ [(src, cnt, "High volume to " +++ dst)]
  else flagged.

(** Step 3, one turn of each of the two loops building [events]. *)
Definition port_event (pf : port_flag) : event :=
  let '(r, reason) := pf in
  Event (isoformat (rec_ts r)) (rec_src r) (rec_dst r)
        (PortInt (rec_port r)) (rec_proto r) 1 reason.

Definition flag_event (now : datetime) (f : flag) : event :=
  let '(src, cnt, reason) := f in
  Event (isoformat now) src EmptyString PortBlank EmptyString cnt reason.

Definition analyze_window (records : list record) : m (list event) :=
  let '(src_count, dst_count, port_flags) :=
    fold_left tally records (Counter.empty, Counter.empty, []) in
  let flagged := fold_left flag_source (Counter.items src_count) [] in
  let flagged := fold_left flag_pair (Counter.items dst_count) flagged in
  let events := fold_left (fun evs pf => evs ++ [port_event pf]) port_flags [] in
  for_each flagged
    (fun evs f => now <- datetime_now ;; ret (evs ++ [flag_event now f]))
    events.

(** *** tail_log *)

(** What one call of [f.readline()] does once the file is open and
    positioned at its end: it returns a line (the empty string when
    nothing new has been appended) or raises. *)
Inductive readline_result : Type :=
| Line (line : string)
| ReadRaises (e : exn).

(** Where the generator stands after the reads: still polling, finished
    after logging a read failure, or left by an exception that
    [except Exception] does not handle. *)
Inductive tail_end : Type :=
| Polling
| Finished (entry : log_entry)
| Propagated (e : exn).

(** The lines yielded by [tail_log] over successive results of
    [f.readline()], and how the generator stands after them.  The wait
    for the file to exist and the seek to its end come before the first
    read; an empty read makes the generator sleep and read again. *)
Fixpoint tail_log (reads : list readline_result) : list string * tail_end :=
  match reads with
  | [] => ([], Polling)
  | Line line :: rest =>
      match line with
      | EmptyString => tail_log rest
      | _ => let (yielded, ending) := tail_log rest in
             (PyStr.strip line :: yielded, ending)
      end
  | ReadRaises e :: _ =>
      if isinstance_Exception e
      then ([], Finished (ERROR, "Fel vid läsning av loggfil: " +++ str_exn e))
      else ([], Propagated e)
  end.

(** *** send_email, block_ip, write_report *)

Definition nonempty (s : string) : bool :=
  match s with
  | EmptyString => false
  | _ => true
  end.

Definition send_email (subject body : string) : m unit :=
  try_except
    (smtp_send (nonempty SMTP_USER && nonempty SMTP_PASS) subject body ;;;
     logging INFO ("E-post skickad: " +++ subject +++ " → " +++ ADMIN_EMAIL))
    (fun e => logging ERROR ("Misslyckades skicka mail: " +++ str_exn e)).

Definition block_ip (ip : string) : m unit :=
  try_except
    (ufw_deny ip ;;;
     logging INFO ("Blockerad IP: " +++ ip))
    (fun e => logging ERROR ("Blockeringsfel: " +++ str_exn e)).

Definition report_header : list string :=
  ["timestamp"; "src_ip"; "dst_ip"; "port"; "protocol"; "count"; "reason"].

Definition write_report (events : list event) : m unit :=
  present <- os_path_exists REPORT_FILE ;;
  let new_file := negb present in
  try_except
    (csv_append REPORT_FILE (if new_file then [report_header] else []) events ;;;
     logging INFO ("Rapport uppdaterad med "
                   +++ PyStr.of_nat (List.length events) +++ " events."))
    (fun e => logging ERROR ("Rapportfel: " +++ str_exn e)).

(** *** main *)

Definition ensure_log_file_exists : m unit :=
  present <- os_path_exists LOG_FILE ;;
  if negb present then
    create_file LOG_FILE ;;;
    logging WARNING ("Loggfil skapad: " +++ LOG_FILE)
  else ret tt.

(** The body of the [try] of [main]. *)
Definition analyse_and_respond (buffer : list record) : m unit :=
  events <- analyze_window buffer ;;
  match events with
  | _ :: _ =>
      write_report events ;;;
      let unique_ips := set_iter (map ev_src events) in
      for_each unique_ips (fun _ ip => block_ip ip) tt ;;;
      let subject :=
        "IDS Alert: " +++ PyStr.of_nat (List.length unique_ips)
        +++ " IPs flagged" in
      let body := "Misstänkta IPs:" +++ PyStr.nl +++ PyStr.join PyStr.nl unique_ips in
      send_email subject body
  | [] => logging INFO "Inga misstänkta aktiviteter."
  end.

(** The variables [buffer] and [start] of [main]. *)
Definition scheduler : Type := list record * Time.

(** The [try ... except Exception] of [main] with what follows it:
    the window is analysed, then the buffer is cleared and the timer
    restarted. *)
Definition flush (buffer : list record) : m scheduler :=
  try_except
    (analyse_and_respond buffer)
    (fun e => logging ERROR ("Fel i analys/respons: " +++ str_exn e)) ;;;
  start <- time_now ;;
  ret ([], start).

(** One turn of the [for line in log_iter] loop. *)
Definition main_step (st : scheduler) (line : string) : m scheduler :=
  let '(buffer, start) := st in
  rec <- parse_line line ;;
  let buffer :=
    match rec with
    | Some r => buffer ++ [r]
    | None => buffer
    end in
  now <- time_now ;;
  if elapsed_ge now start ANALYSIS_INTERVAL
  then flush buffer
  else ret (buffer, start).

(** The loop of [main] over the lines it is given. *)
Definition main_loop (lines : list string) (st : scheduler) : m scheduler :=
  for_each lines main_step st.

(** [main], run over the given results of [f.readline()]: it returns
    the scheduler as it stands when these have been consumed. *)
Definition main (reads : list readline_result) : m scheduler :=
  ensure_log_file_exists ;;;
  let (lines, ending) := tail_log reads in
  start <- time_now ;;
  st <- main_loop lines ([], start) ;;
  match ending with
  | Polling => ret st
  | Finished entry => logging (fst entry) (snd entry) ;;; ret st
  | Propagated e => raise e
  end.

End Detector.

(* ================================================================= *)
(** ** The specification's reading of the tail *)

(** The line with its trailing line terminators removed and nothing
    else changed: what the specification says [tail_log] yields. *)
Fixpoint strip_line_terminators (s : string) : string :=
  match s with
  | EmptyString => EmptyString
  | String c s' =>
      match strip_line_terminators s' with
      | EmptyString =>
          if Ascii.eqb c PyStr.LF || Ascii.eqb c PyStr.CR
          then EmptyString else String c EmptyString
      | r => String c r
      end
  end.

(* ================================================================= *)
(** ** A reference platform *)

(** A platform to run the program on concrete inputs: timestamps of the
    layout [YYYY-MM-DDTHH:MM:SS] (the one of the repository's own test
    lines), decimal integer literals, a clock that advances by a fixed
    number of seconds per reading, and input/output that records what
    it was asked to do.  The messages of [ValueError] are the ones
    CPython gives for a malformed string; no property depends on their
    text. *)
Module Reference.

Record dt : Type := DateTime {
  year : nat; month : nat; day : nat;
  hour : nat; minute : nat; second : nat;
  microsecond : nat;
  utc : bool
}.

Definition digit (c : ascii) : option nat :=
  let n := nat_of_ascii c in
  if (48 <=? n) && (n <=? 57) then Some (n - 48) else None.

(** The number written by a string of decimal digits. *)
Fixpoint number (s : string) (acc : nat) : option nat :=
  match s with
  | EmptyString => Some acc
  | String c s' =>
      match digit c with
      | Some d => number s' (10 * acc + d)
      | None => None
      end
  end.

(** The number written by the [len] digits of [s] from position [pos]. *)
Definition field (s : string) (pos len : nat) : option nat :=
  number (substring pos len s) 0.

Definition is_leap (y : nat) : bool :=
  ((y mod 4 =? 0) && negb (y mod 100 =? 0)) || (y mod 400 =? 0).

Definition days_in_month (y mo : nat) : nat :=
  match mo with
  | 2 => if is_leap y then 29 else 28
  | 4 | 6 | 9 | 11 => 30
  | _ => 31
  end.

Definition quoted (s : string) : string := "'" +++ s +++ "'".

Definition parse_iso (s : string) : parsed dt :=
  let bad := ValueError ("Invalid isoformat string: " +++ quoted s) in
  if negb (String.length s =? 19) then bad else
  match field s 0 4, field s 5 2, field s 8 2,
        field s 11 2, field s 14 2, field s 17 2 with
  | Some y, Some mo, Some d, Some h, Some mi, Some sec =>
      if String.eqb (substring 4 1 s) "-" && String.eqb (substring 7 1 s) "-"
         && String.eqb (substring 13 1 s) ":"
         && String.eqb (substring 16 1 s) ":"
         && (1 <=? y) && (1 <=? mo) && (mo <=? 12)
         && (1 <=? d) && (d <=? days_in_month y mo)
         && (h <? 24) && (mi <? 60) && (sec <? 60)
      then Value (DateTime y mo d h mi sec 0 false)
      else bad
  | _, _, _, _, _, _ => bad
  end.

(** [n] in decimal, padded with zeros to [width] digits. *)
Definition padded (width n : nat) : string :=
  let s := PyStr.of_nat n in
  String.concat EmptyString (repeat "0" (width - String.length s)) +++ s.

Definition print_iso (t : dt) : string :=
  padded 4 (year t) +++ "-" +++ padded 2 (month t) +++ "-"
  +++ padded 2 (day t) +++ "T" +++ padded 2 (hour t) +++ ":"
  +++ padded 2 (minute t) +++ ":" +++ padded 2 (second t)
  +++ (if microsecond t =? 0 then EmptyString
       else "." +++ padded 6 (microsecond t))
  +++ (if utc t then "+00:00" else EmptyString).

(** Digits with single underscores between them. *)
Fixpoint literal (s : string) (acc : Z) (after_digit : bool) : option Z :=
  match s with
  | EmptyString => if after_digit then Some acc else None
  | String c s' =>
      match digit c with
      | Some d => literal s' (10 * acc + Z.of_nat d)%Z true
      | None =>
          if Ascii.eqb c "_" && after_digit then literal s' acc false
          else None
      end
  end.

Definition parse_int (s : string) : parsed Z :=
  let bad :=
    ValueError ("invalid literal for int() with base 10: " +++ quoted s) in
  let unsigned body := literal body 0%Z false in
  match s with
  | String "-" body =>
      match unsigned body with Some n => Value (- n)%Z | None => bad end
  | String "+" body =>
      match unsigned body with Some n => Value n | None => bad end
  | _ =>
      match unsigned s with Some n => Value n | None => bad end
  end.

(** The clock reads 2025-05-14 12:00 UTC, one microsecond later at
    each call. *)
Definition clock_utc (n : nat) : dt :=
  DateTime 2025 5 14 12 0 0 (S n) true.

(** What the outside world was asked to do. *)
Inductive action : Type :=
| Created (path : string)
| Appended (path : string) (header : list (list string)) (rows : list event)
| Denied (ip : string)
| Mailed (authenticated : bool) (subject body : string).

Definition perform (a : action) : M (list action) unit :=
  fun w => (Returns tt, MkWorld (w_log w) (w_now w) (w_time w) (w_ext w ++ [a])).

(** The files that exist: the log file, and the report once written. *)
Definition path_exists (path : string) : M (list action) bool :=
  fun w =>
    (Returns (String.eqb path LOG_FILE
              || existsb (fun a => match a with
                                   | Appended p _ _ => String.eqb p path
                                   | _ => false
                                   end) (w_ext w)), w).

(** [tick] seconds pass between two readings of [time.time()]. *)
Definition platform (tick : Z) : Platform := {|
  datetime := dt;
  fromisoformat := parse_iso;
  isoformat := print_iso;
  py_int := parse_int;
  utcnow := clock_utc;
  Time := Z;
  time_time := fun n => (tick * Z.of_nat n)%Z;
  elapsed_ge := fun now start d => (d <=? now - start)%Z;
  Ext := list action;
  os_path_exists := path_exists;
  create_file := fun path => perform (Created path);
  csv_append := fun path header rows => perform (Appended path header rows);
  ufw_deny := fun ip => perform (Denied ip);
  smtp_send := fun auth subject body => perform (Mailed auth subject body);
  SMTP_USER := EmptyString;
  SMTP_PASS := EmptyString;
  set_iter := nodup string_dec
|}.

Definition world0 : World (list action) := MkWorld [] 0 0 [].

(** A host whose clock advances by 300 seconds per reading. *)
Definition host : Platform := platform 300.

Definition noon : dt := DateTime 2025 5 14 12 0 0 0 false.

(** A primitive that fails by raising [e]. *)
Definition failing {A : Type} (e : exn) : M (list action) A :=
  fun w => (Raises e, w).

(** The platform above with the three outgoing primitives as given. *)
Definition platform_with (tick : Z)
  (append : string -> list (list string) -> list event -> M (list action) unit)
  (deny : string -> M (list action) unit)
  (send : bool -> string -> string -> M (list action) unit) : Platform := {|
  datetime := dt;
  fromisoformat := parse_iso;
  isoformat := print_iso;
  py_int := parse_int;
  utcnow := clock_utc;
  Time := Z;
  time_time := fun n => (tick * Z.of_nat n)%Z;
  elapsed_ge := fun now start d => (d <=? now - start)%Z;
  Ext := list action;
  os_path_exists := path_exists;
  create_file := fun path => perform (Created path);
  csv_append := append;
  ufw_deny := deny;
  smtp_send := send;
  SMTP_USER := EmptyString;
  SMTP_PASS := EmptyString;
  set_iter := nodup string_dec
|}.

(** A host on which the report cannot be written, the firewall tool
    fails and the mail server refuses connections. *)
Definition rough_host : Platform :=
  platform_with 300
    (fun _ _ _ => failing (Exception "PermissionError" "Permission denied"))
    (fun _ => failing (Exception "CalledProcessError" "ufw returned 1"))
    (fun _ _ _ => failing (Exception "ConnectionRefusedError" "Connection refused")).

(** A host on which the operator interrupts the firewall tool. *)
Definition interrupted_host : Platform :=
  platform_with 300
    (fun path header rows => perform (Appended path header rows))
    (fun _ => failing (BaseException "KeyboardInterrupt"))
    (fun auth subject body => perform (Mailed auth subject body)).

(** A host whose clock stands still. *)
Definition still_host : Platform := platform 0.

(** A host whose clock advances by 100 seconds per reading. *)
Definition steady_host : Platform := platform 100.

(** A connection from 1.1.1.1 to 2.2.2.2 on the given port, as the
    repository's tests build them. *)
Definition connection (H : Platform) (ts : @datetime H) (port : Z)
  : @record H :=
  Rec ts "1.1.1.1" "2.2.2.2" port "TCP".

End Reference.

(* ================================================================= *)
(** ** Views of a window used to state the properties *)

Section Views.

Context {P : Platform}.

(** The key under which [dst_count] counts a record. *)
Definition route (r : record) : string * string := (rec_src r, rec_dst r).

(** Number of records of the window coming from [src]. *)
Definition connections (records : list record) (src : string) : nat :=
  count_occ string_dec (map rec_src records) src.

(** Number of records of the window going from [src] to [dst]. *)
Definition volume (records : list record) (src dst : string) : nat :=
  count_occ string_pair_dec (map route records) (src, dst).

(** The port is one of 1..1023 other than 22, 80 and 443. *)
Definition unusual (port : Z) : bool :=
  ((1 <=? port) && (port <? 1024)
   && negb (port =? 22) && negb (port =? 80) && negb (port =? 443))%Z.

(** The event reported for a record on an unusual port. *)
Definition unusual_port_event (r : record) : event :=
  Event (isoformat (rec_ts r)) (rec_src r) (rec_dst r)
        (PortInt (rec_port r)) (rec_proto r) 1 "Unusual port".

(** The event reported for a threshold crossed, stamped with a reading
    of the clock. *)
Definition threshold_event (now : datetime) (src : string) (cnt : nat)
  (reason : string) : event :=
  Event (isoformat now) src EmptyString PortBlank EmptyString cnt reason.

Definition has_reason (reason : string) (e : event) : bool :=
  String.eqb (ev_reason e) reason.

Definition is_high_connection_count (src : string) (e : event) : bool :=
  has_reason "High connection count" e && String.eqb (ev_src e) src.

Definition is_high_volume (src dst : string) (e : event) : bool :=
  has_reason ("High volume to " +++ dst) e && String.eqb (ev_src e) src.

(** The test of [is_high_connection_count] and of [is_high_volume],
    on an element of [flagged]. *)
Definition flag_is_high_connection_count (src : string) (f : flag) : bool :=
  String.eqb (snd f) "High connection count" && String.eqb (fst (fst f)) src.

Definition flag_is_high_volume (src dst : string) (f : flag) : bool :=
  String.eqb (snd f) ("High volume to " +++ dst)
  && String.eqb (fst (fst f)) src.

(** The records the scheduler buffers out of [lines]: those for which
    [parse_line] returns a record, in order. *)
Definition accept_lines (lines : list string) : M Ext (list record) :=
  for_each lines
    (fun buffer line =>
       rec <- parse_line line ;;
       ret (match rec with
            | Some r => buffer ++ [r]
            | None => buffer
            end))
    [].

(** [flags], each stamped with one successive reading of the clock from
    the [n]-th on. *)
Fixpoint stamped (n : nat) (flags : list flag) : list event :=
  match flags with
  | [] => []
  | f :: flags' => flag_event (utcnow n) f :: stamped (S n) flags'
  end.

(** The sources counted over the connection threshold, in the order of
    [src_count], as elements of [flagged]. *)
Definition source_flags (records : list record) : list flag :=
  map (fun item : string * nat =>
         (fst item, snd item, "High connection count"))
      (filter (fun item : string * nat => CONNECTION_THRESHOLD <? snd item)
         (Counter.items (Counter.count_all string_dec (map rec_src records)))).

(** The routes counted over the volume threshold, in the order of
    [dst_count], as elements of [flagged]. *)
Definition route_flags (records : list record) : list flag :=
  map (fun item : string * string * nat =>
         (fst (fst item), snd item, "High volume to " +++ snd (fst item)))
      (filter (fun item : string * string * nat =>
                 VOLUME_THRESHOLD <? snd item)
         (Counter.items
            (Counter.count_all string_pair_dec (map route records)))).

(** The world after [k] more calls of [datetime.datetime.now]. *)
Definition after_now (k : nat) (w : World Ext) : World Ext :=
  MkWorld (w_log w) (w_now w + k) (w_time w) (w_ext w).

(** The world after one more call of [time.time]. *)
Definition after_time (w : World Ext) : World Ext :=
  MkWorld (w_log w) (w_now w) (S (w_time w)) (w_ext w).

End Views.

(* ================================================================= *)
(** * Properties *)

(** ** Counters *)

Module CounterFacts.
Section Facts.

Context {K : Type} (K_dec : forall x y : K, {x = y} + {x <> y}).

Local Abbreviation get := (Counter.get K_dec).
Local Abbreviation incr := (Counter.incr K_dec).
Local Abbreviation count_all := (Counter.count_all K_dec).
Local Abbreviation has_key := (Counter.has_key K_dec).

Lemma get_incr (c : Counter.t) (k k' : K) :
  get (incr c k) k' = if K_dec k k' then S (get c k') else get c k'.
Proof.
  induction c as [|[k0 n] c IH]; simpl.
  - destruct (K_dec k' k), (K_dec k k'); congruence.
  - destruct (K_dec k k0) as [->|Hk]; simpl.
    + destruct (K_dec k' k0) as [->|Hk'].
      * destruct (K_dec k0 k0); congruence.
      * destruct (K_dec k0 k'); congruence.
    + destruct (K_dec k' k0) as [->|Hk'].
      * destruct (K_dec k k0); congruence.
      * exact IH.
Qed.

Lemma keys_incr_present (c : Counter.t) (k : K) :
  In k (Counter.keys c) -> Counter.keys (incr c k) = Counter.keys c.
Proof.
  unfold Counter.keys.
  induction c as [|[k0 n] c IH]; simpl; [contradiction|].
  intros Hin. destruct (K_dec k k0) as [E|Hk]; simpl; [reflexivity|].
  f_equal. apply IH. destruct Hin; [congruence | assumption].
Qed.

Lemma keys_incr_absent (c : Counter.t) (k : K) :
  ~ In k (Counter.keys c) -> Counter.keys (incr c k) = Counter.keys c ++ [k].
Proof.
  unfold Counter.keys.
  induction c as [|[k0 n] c IH]; simpl; [reflexivity|].
  intros Hin. destruct (K_dec k k0) as [E|Hk]; simpl.
  - exfalso. apply Hin. left. congruence.
  - f_equal. apply IH. tauto.
Qed.

Lemma positive_incr (c : Counter.t) (k : K) :
  Forall (fun kn => 0 < snd kn) c ->
  Forall (fun kn => 0 < snd kn) (incr c k).
Proof.
  induction 1 as [|[k0 n] c Hn Hc IH]; simpl.
  - repeat constructor.
  - destruct (K_dec k k0); constructor; simpl in *; auto; lia.
Qed.

Lemma wf_incr (c : Counter.t) (k : K) :
  Counter.wf c -> Counter.wf (incr c k).
Proof.
  intros [Hnd Hpos]. split; [|now apply positive_incr].
  destruct (in_dec K_dec k (Counter.keys c)) as [Hin|Hout].
  - now rewrite keys_incr_present.
  - rewrite keys_incr_absent by assumption.
    apply NoDup_app; [assumption | repeat constructor; intros [] | ].
    intros x Hx [<-|[]]. contradiction.
Qed.

Lemma wf_fold_incr (l : list K) (c : Counter.t) :
  Counter.wf c -> Counter.wf (fold_left incr l c).
Proof.
  revert c. induction l as [|k l IH]; simpl; intros c Hc; [assumption|].
  apply IH, wf_incr, Hc.
Qed.

Lemma wf_count_all (l : list K) : Counter.wf (count_all l).
Proof.
  apply wf_fold_incr. split; constructor.
Qed.

Lemma get_fold_incr (l : list K) (c : Counter.t) (k : K) :
  get (fold_left incr l c) k = count_occ K_dec l k + get c k.
Proof.
  revert c. induction l as [|k0 l IH]; simpl; intros c; [reflexivity|].
  rewrite IH, get_incr. destruct (K_dec k0 k); lia.
Qed.

Lemma get_count_all (l : list K) (k : K) :
  get (count_all l) k = count_occ K_dec l k.
Proof.
  unfold Counter.count_all. rewrite get_fold_incr. simpl. lia.
Qed.

Lemma filter_absent (c : Counter.t) (k : K) :
  ~ In k (Counter.keys c) -> filter (has_key k) c = [].
Proof.
  unfold Counter.keys, Counter.has_key.
  induction c as [|[k0 n] c IH]; simpl; intros Hk; [reflexivity|].
  destruct (K_dec k0 k) as [->|_]; [tauto|]. apply IH. tauto.
Qed.

Lemma get_absent (c : Counter.t) (k : K) :
  ~ In k (Counter.keys c) -> get c k = 0.
Proof.
  unfold Counter.keys.
  induction c as [|[k0 n] c IH]; simpl; intros Hk; [reflexivity|].
  destruct (K_dec k k0) as [->|_]; [tauto|]. apply IH. tauto.
Qed.

(** The items of a well-formed counter under one key: the key with its
    count when the count is not zero, nothing otherwise. *)
Lemma filter_has_key (c : Counter.t) (k : K) :
  Counter.wf c ->
  filter (has_key k) (Counter.items c) =
  match get c k with
  | 0 => []
  | n => [(k, n)]
  end.
Proof.
  unfold Counter.items. intros [Hnd Hpos].
  induction c as [|[k0 n] c IH]; simpl; [reflexivity|].
  inversion Hnd as [|? ? Hk0 Hnd']; subst.
  inversion Hpos as [|? ? Hn Hpos']; subst. simpl in Hn.
  unfold Counter.has_key at 1. simpl.
  destruct (K_dec k0 k) as [->|Hne].
  - destruct (K_dec k k) as [_|]; [|congruence].
    rewrite (filter_absent c k Hk0).
    destruct n; [lia | reflexivity].
  - destruct (K_dec k k0) as [->|_]; [congruence|].
    apply IH; assumption.
Qed.

Lemma In_items_get (c : Counter.t) (k : K) (n : nat) :
  Counter.wf c -> In (k, n) (Counter.items c) -> get c k = n /\ 0 < n.
Proof.
  unfold Counter.items. intros [Hnd Hpos] Hin.
  induction c as [|[k0 n0] c IH]; simpl in *; [contradiction|].
  inversion Hnd as [|? ? Hk0 Hnd']; subst.
  inversion Hpos as [|? ? Hn Hpos']; subst. simpl in Hn.
  destruct Hin as [E|Hin].
  - inversion E; subst. destruct (K_dec k k); [split; [reflexivity|lia] | congruence].
  - destruct (K_dec k k0) as [->|_].
    + exfalso. apply Hk0. change k0 with (fst (k0, n)). now apply in_map.
    + apply IH; assumption.
Qed.

Lemma get_In_items (c : Counter.t) (k : K) :
  0 < get c k -> In (k, get c k) (Counter.items c).
Proof.
  unfold Counter.items.
  induction c as [|[k0 n0] c IH]; simpl; [lia|].
  destruct (K_dec k k0) as [->|_]; [now left | right; auto].
Qed.

Lemma counted_key (l : list K) (k : K) (n : nat) :
  In (k, n) (Counter.items (count_all l)) -> In k l.
Proof.
  intros Hin. apply In_items_get in Hin; [|apply wf_count_all].
  destruct Hin as [Hget Hpos]. rewrite get_count_all in Hget.
  apply (count_occ_In K_dec). lia.
Qed.

End Facts.
End CounterFacts.

(** ** Trimming *)

Module PyStrFacts.
Import PyStr.

Lemma lstrip_prefix (s : string) :
  exists pre, s = pre +++ lstrip s /\ all_space pre = true.
Proof.
  induction s as [|c s [pre [E Hpre]]]; simpl.
  - exists EmptyString. split; reflexivity.
  - destruct (isspace c) eqn:Hc.
    + exists (String c pre). simpl. rewrite Hc, Hpre. split; [congruence | reflexivity].
    + exists EmptyString. split; reflexivity.
Qed.

Lemma lstrip_first (s : string) (c : ascii) :
  first (lstrip s) = Some c -> isspace c = false.
Proof.
  induction s as [|c0 s IH]; simpl; [discriminate|].
  destruct (isspace c0) eqn:Hc0; [exact IH|].
  simpl. intros E. inversion E; subst. exact Hc0.
Qed.

Lemma rstrip_suffix (s : string) :
  exists post, s = rstrip s +++ post /\ all_space post = true.
Proof.
  induction s as [|c s [post [E Hpost]]]; simpl.
  - exists EmptyString. split; reflexivity.
  - destruct (rstrip s) as [|c1 r] eqn:Hr.
    + simpl in E. subst post. destruct (isspace c) eqn:Hc.
      * exists (String c s). simpl. rewrite Hc, Hpost. split; reflexivity.
      * exists s. split; [reflexivity | assumption].
    + exists post. split; [|assumption]. simpl. simpl in E. congruence.
Qed.

Lemma rstrip_last (s : string) (c : ascii) :
  last (rstrip s) = Some c -> isspace c = false.
Proof.
  induction s as [|c0 s IH]; simpl; [discriminate|].
  destruct (rstrip s) as [|c1 r] eqn:Hr.
  - destruct (isspace c0) eqn:Hc0; simpl; [discriminate|].
    intros E. inversion E; subst. exact Hc0.
  - intros E. apply IH. exact E.
Qed.

Lemma rstrip_first (s : string) (c : ascii) :
  first (rstrip s) = Some c -> first s = Some c.
Proof.
  destruct s as [|c0 s]; simpl; [discriminate|].
  destruct (rstrip s) as [|c1 r].
  - destruct (isspace c0); simpl; [discriminate | trivial].
  - simpl. trivial.
Qed.

(** [s.strip()] removes white space at both ends and nothing else. *)
Lemma strip_spec (s : string) :
  exists pre post,
    s = pre +++ strip s +++ post
    /\ all_space pre = true /\ all_space post = true
    /\ (forall c, first (strip s) = Some c -> isspace c = false)
    /\ (forall c, last (strip s) = Some c -> isspace c = false).
Proof.
  destruct (lstrip_prefix s) as [pre [E1 Hpre]].
  destruct (rstrip_suffix (lstrip s)) as [post [E2 Hpost]].
  exists pre, post. unfold strip. repeat split; try assumption.
  - rewrite <- E2. exact E1.
  - intros c Hc. apply (lstrip_first s). now apply rstrip_first.
  - intros c. apply rstrip_last.
Qed.

Lemma append_assoc (s1 s2 s3 : string) :
  (s1 +++ s2) +++ s3 = s1 +++ s2 +++ s3.
Proof.
  induction s1 as [|c s1 IH]; simpl; [reflexivity | now rewrite IH].
Qed.

Lemma strip_empty : strip EmptyString = EmptyString.
Proof. reflexivity. Qed.

End PyStrFacts.

(** ** Effects *)

Section Effects.

Context {P : Platform}.

Lemma for_each_app {A S : Type} (l1 l2 : list A) (body : S -> A -> M Ext S)
  (acc : S) (w : World Ext) :
  for_each (l1 ++ l2) body acc w =
  match for_each l1 body acc w with
  | (Returns acc', w') => for_each l2 body acc' w'
  | (Raises e, w') => (Raises e, w')
  end.
Proof.
  revert acc w. induction l1 as [|x l1 IH]; simpl; intros acc w; [reflexivity|].
  unfold bind. destruct (body acc x w) as [[acc'|e] w']; [apply IH | reflexivity].
Qed.

(** A [try] whose body raises an instance of [Exception] runs its
    handler in the world the body left. *)
Lemma try_except_handles {A : Type} (body : M Ext A) (handler : exn -> M Ext A)
  (w w' : World Ext) (e : exn) :
  body w = (Raises e, w') ->
  isinstance_Exception e = true ->
  try_except body handler w = handler e w'.
Proof.
  intros Hbody He. unfold try_except. rewrite Hbody, He. reflexivity.
Qed.


End Effects.

(** ** The record parser *)

Section Parser.

Context {P : Platform}.

Lemma fields_length (line : string) :
  List.length (fields line) = List.length (PyStr.split "," line).
Proof. unfold fields. apply length_map. Qed.

(** C5. A line that splits on commas into exactly five fields, whose
    first field (trimmed) is read by [fromisoformat] as [ts] and whose
    fourth (trimmed) is read by [int] as [port], is parsed into the
    record made of [ts], the trimmed second and third fields, the
    integer [port] and the trimmed fifth field; nothing is logged. *)
Theorem parse_line_valid (line p0 p1 p2 p3 p4 : string) (ts : datetime)
  (port : Z) (w : World Ext) :
  PyStr.split "," line = [p0; p1; p2; p3; p4] ->
  fromisoformat (PyStr.strip p0) = Value ts ->
  py_int (PyStr.strip p3) = Value port ->
  parse_line line w =
  (Returns (Some (Rec ts (PyStr.strip p1) (PyStr.strip p2) port
                      (PyStr.strip p4))), w).
Proof.
  intros Hsplit Hts Hport.
  unfold parse_line, fields. rewrite Hsplit. simpl.
  unfold try_except, bind, part. simpl.
  rewrite Hts. simpl. rewrite Hport. reflexivity.
Qed.

(** C6. A line whose comma-split field count is not five, or whose
    timestamp field or port field is refused by its parser, makes
    [parse_line] return [None]: it returns normally, having logged one
    warning that ends with the line. *)
Theorem parse_line_invalid (line : string) (w : World Ext) :
  List.length (PyStr.split "," line) <> 5
  \/ (exists msg, fromisoformat (part (fields line) 0) = ValueError msg)
  \/ (exists msg, py_int (part (fields line) 3) = ValueError msg) ->
  exists prefix,
    parse_line line w = (Returns None, add_log (WARNING, prefix +++ line) w).
Proof.
  intros H. unfold parse_line.
  destruct (List.length (fields line) =? 5) eqn:Hlen; simpl.
  - apply Nat.eqb_eq in Hlen. rewrite fields_length in Hlen.
    destruct H as [H|H]; [contradiction|].
    unfold try_except, bind.
    destruct (fromisoformat (part (fields line) 0)) as [ts|msg] eqn:Hts; simpl.
    + destruct H as [[msg H]|[msg H]]; [discriminate|].
      rewrite H. simpl.
      exists ("Parsingfel: " +++ msg +++ " -- ").
      unfold logging, ret. simpl. rewrite PyStrFacts.append_assoc. reflexivity.
    + exists ("Parsingfel: " +++ msg +++ " -- ").
      unfold logging, ret. simpl. rewrite PyStrFacts.append_assoc. reflexivity.
  - exists "Ogiltigt format, hoppar över: ". reflexivity.
Qed.

(** [parse_line] never raises. *)
Lemma parse_line_returns (line : string) (w : World Ext) :
  exists rec w', parse_line line w = (Returns rec, w').
Proof.
  unfold parse_line.
  destruct (List.length (fields line) =? 5); simpl.
  - unfold try_except, bind.
    destruct (fromisoformat (part (fields line) 0)); simpl;
      [|do 2 eexists; reflexivity].
    destruct (py_int (part (fields line) 3)); simpl;
      do 2 eexists; reflexivity.
  - do 2 eexists; reflexivity.
Qed.

(** The source of a parsed record is the trimmed second field. *)
Lemma parse_line_src (line : string) (w w' : World Ext) (r : record) :
  parse_line line w = (Returns (Some r), w') ->
  rec_src r = part (fields line) 1.
Proof.
  unfold parse_line.
  destruct (List.length (fields line) =? 5); simpl; [|discriminate].
  unfold try_except, bind.
  destruct (fromisoformat (part (fields line) 0)); simpl; [|discriminate].
  destruct (py_int (part (fields line) 3)); simpl; [|discriminate].
  intros E. inversion E. reflexivity.
Qed.

End Parser.

(** ** The window analysis *)

Section Analysis.

Context {P : Platform}.

#[local] Arguments in_UNUSUAL_PORTS : simpl never.
#[local] Arguments string_pair_dec : simpl never.
#[local] Arguments Nat.ltb : simpl never.

(** Membership in [UNUSUAL_PORTS], arithmetically. *)
Lemma in_UNUSUAL_PORTS_unusual (port : Z) :
  in_UNUSUAL_PORTS port = unusual port.
Proof.
  apply eq_true_iff_eq. unfold in_UNUSUAL_PORTS, UNUSUAL_PORTS, unusual.
  rewrite existsb_exists. split.
  - intros [x [Hin Hx]]. apply Z.eqb_eq in Hx. subst x.
    apply filter_In in Hin. destruct Hin as [Hin Hnot].
    apply in_map_iff in Hin. destruct Hin as [n [<- Hn]].
    apply in_seq in Hn. simpl in Hnot.
    rewrite !orb_false_r, !negb_orb in Hnot.
    rewrite !andb_true_iff in *. rewrite Z.leb_le, Z.ltb_lt.
    intuition lia.
  - intros H. exists port. split; [|apply Z.eqb_refl].
    rewrite !andb_true_iff, Z.leb_le, Z.ltb_lt in H.
    apply filter_In. split.
    + apply in_map_iff. exists (Z.to_nat port). split; [lia|].
      apply in_seq. lia.
    + simpl. rewrite !orb_false_r, !negb_orb, !andb_true_iff. intuition.
Qed.

Lemma tally_unfold (src_count : Counter.t) (dst_count : Counter.t)
  (port_flags : list port_flag) (r : record) :
  tally (src_count, dst_count, port_flags) r =
  (Counter.incr string_dec src_count (rec_src r),
   Counter.incr string_pair_dec dst_count (route r),
   port_flags ++ (if unusual (rec_port r) then [(r, "Unusual port")] else [])).
Proof.
  unfold tally. rewrite in_UNUSUAL_PORTS_unusual.
  destruct (unusual (rec_port r)); [reflexivity|].
  now rewrite app_nil_r.
Qed.

Lemma fold_left_cons {A B : Type} (f : A -> B -> A) (x : B) (l : list B)
  (a : A) :
  fold_left f (x :: l) a = fold_left f l (f a x).
Proof. reflexivity. Qed.

Lemma fold_tally (records : list record) (src_count : Counter.t)
  (dst_count : Counter.t) (port_flags : list port_flag) :
  fold_left tally records (src_count, dst_count, port_flags) =
  (fold_left (Counter.incr string_dec) (map rec_src records) src_count,
   fold_left (Counter.incr string_pair_dec) (map route records) dst_count,
   port_flags
   ++ map (fun r => (r, "Unusual port"))
        (filter (fun r => unusual (rec_port r)) records)).
Proof.
  revert src_count dst_count port_flags.
  induction records as [|r records IH]; intros sc dc pf.
  - simpl. now rewrite app_nil_r.
  - rewrite fold_left_cons, tally_unfold, IH. simpl.
    destruct (unusual (rec_port r)); simpl.
    + now rewrite <- app_assoc.
    + now rewrite app_nil_r.
Qed.

Lemma fold_flag_source (items : list (string * nat)) (flagged : list flag) :
  fold_left flag_source items flagged =
  flagged
  ++ map (fun item : string * nat =>
            (fst item, snd item, "High connection count"))
       (filter (fun item : string * nat => CONNECTION_THRESHOLD <? snd item)
          items).
Proof.
  revert flagged. induction items as [|[src cnt] items IH]; simpl; intros fl.
  - now rewrite app_nil_r.
  - rewrite IH. destruct (CONNECTION_THRESHOLD <? cnt); [|reflexivity].
    simpl. now rewrite <- app_assoc.
Qed.

Lemma fold_flag_pair (items : list (string * string * nat))
  (flagged : list flag) :
  fold_left flag_pair items flagged =
  flagged
  ++ map (fun item : string * string * nat =>
            (fst (fst item), snd item, "High volume to " +++ snd (fst item)))
       (filter (fun item : string * string * nat =>
                  VOLUME_THRESHOLD <? snd item) items).
Proof.
  revert flagged.
  induction items as [|[[src dst] cnt] items IH]; simpl; intros fl.
  - now rewrite app_nil_r.
  - rewrite IH. destruct (VOLUME_THRESHOLD <? cnt); [|reflexivity].
    simpl. now rewrite <- app_assoc.
Qed.

Lemma fold_port_events (port_flags : list port_flag) (events : list event) :
  fold_left (fun evs pf => evs ++ [port_event pf]) port_flags events =
  events ++ map port_event port_flags.
Proof.
  revert events. induction port_flags as [|pf pfs IH]; simpl; intros evs.
  - now rewrite app_nil_r.
  - rewrite IH. now rewrite <- app_assoc.
Qed.

Lemma for_each_stamped (flagged : list flag) (events : list event)
  (w : World Ext) :
  for_each flagged
    (fun evs f => now <- datetime_now ;; ret (evs ++ [flag_event now f]))
    events w =
  (Returns (events ++ stamped (w_now w) flagged),
   after_now (List.length flagged) w).
Proof.
  revert events w. induction flagged as [|f fl IH]; simpl; intros evs w.
  - unfold ret, after_now. rewrite app_nil_r, Nat.add_0_r.
    destruct w; reflexivity.
  - unfold bind at 1. unfold bind at 1. simpl. unfold ret at 1.
    rewrite IH. simpl. rewrite <- app_assoc. simpl.
    unfold after_now. simpl. do 2 f_equal. lia.
Qed.

(** What [analyze_window] returns, and the world it leaves: the events
    of the records on unusual ports, then the stamped threshold flags;
    the clock has been read once per threshold flag. *)
Lemma analyze_window_runs (records : list record) (w : World Ext) :
  analyze_window records w =
  (Returns
     (map unusual_port_event (filter (fun r => unusual (rec_port r)) records)
      ++ stamped (w_now w) (source_flags records ++ route_flags records)),
   after_now (List.length (source_flags records ++ route_flags records)) w).
Proof.
  unfold analyze_window. rewrite fold_tally.
  rewrite fold_flag_source, fold_flag_pair, fold_port_events.
  rewrite for_each_stamped. simpl. rewrite map_map. reflexivity.
Qed.

(** *** Stamping the threshold flags *)

Lemma stamped_app (n : nat) (a b : list flag) :
  stamped n (a ++ b) = stamped n a ++ stamped (n + List.length a) b.
Proof.
  revert n. induction a as [|f a IH]; simpl; intros n.
  - now rewrite Nat.add_0_r.
  - rewrite IH. do 3 f_equal. lia.
Qed.

Lemma stamped_length (n : nat) (flags : list flag) :
  List.length (stamped n flags) = List.length flags.
Proof.
  revert n. induction flags as [|f fl IH]; simpl; intros n; [reflexivity|].
  now rewrite IH.
Qed.

Lemma nth_error_stamped (n j : nat) (flags : list flag) :
  nth_error (stamped n flags) j =
  option_map (flag_event (utcnow (n + j))) (nth_error flags j).
Proof.
  revert n j. induction flags as [|f fl IH]; intros n [|j]; simpl;
    try reflexivity.
  - now rewrite Nat.add_0_r.
  - rewrite IH. do 3 f_equal. lia.
Qed.

Lemma In_stamped (n : nat) (flags : list flag) (e : event) :
  In e (stamped n flags) ->
  exists i f, In f flags /\ e = flag_event (utcnow i) f.
Proof.
  revert n. induction flags as [|f fl IH]; simpl; intros n; [contradiction|].
  intros [<-|Hin].
  - exists n, f. auto.
  - destruct (IH _ Hin) as [i [f' [Hf' ->]]]. exists i, f'. auto.
Qed.

(** A test on events that does not look at the timestamp selects in
    [stamped n flags] the events of the flags it selects. *)
Lemma filter_stamped (test : event -> bool) (test' : flag -> bool) (n : nat)
  (flags : list flag) :
  (forall now f, test (flag_event now f) = test' f) ->
  Forall2 (fun e f => exists i, e = flag_event (utcnow i) f)
          (filter test (stamped n flags)) (filter test' flags).
Proof.
  intros Htest. revert n.
  induction flags as [|f fl IH]; simpl; intros n; [constructor|].
  rewrite Htest. destruct (test' f); [|apply IH].
  constructor; [now exists n | apply IH].
Qed.

Lemma Forall2_nil_r {A B : Type} (R : A -> B -> Prop) (l : list A) :
  Forall2 R l [] -> l = [].
Proof. inversion 1. reflexivity. Qed.

Lemma Forall2_single_r {A B : Type} (R : A -> B -> Prop) (l : list A) (b : B) :
  Forall2 R l [b] -> exists a, l = [a] /\ R a b.
Proof.
  inversion 1 as [|a ? l' ? Hab Hrest]; subst.
  inversion Hrest; subst. now exists a.
Qed.

Lemma filter_comm {A : Type} (f g : A -> bool) (l : list A) :
  filter f (filter g l) = filter g (filter f l).
Proof.
  induction l as [|x l IH]; simpl; [reflexivity|].
  destruct (f x) eqn:Hf, (g x) eqn:Hg; simpl; rewrite ?Hf, ?Hg, IH; reflexivity.
Qed.

Lemma filter_none {A : Type} (f : A -> bool) (l : list A) :
  (forall x, In x l -> f x = false) -> filter f l = [].
Proof.
  induction l as [|x l IH]; simpl; intros H; [reflexivity|].
  rewrite (H x) by now left. apply IH. intros y Hy. apply H. now right.
Qed.

Lemma filter_all {A : Type} (f : A -> bool) (l : list A) :
  (forall x, In x l -> f x = true) -> filter f l = l.
Proof.
  induction l as [|x l IH]; simpl; intros H; [reflexivity|].
  rewrite (H x) by now left. f_equal. apply IH. intros y Hy. apply H. now right.
Qed.

(** *** Which flags a rule raises *)

Lemma eqb_common_prefix (p a b : string) :
  String.eqb (p +++ a) (p +++ b) = String.eqb a b.
Proof.
  induction p as [|c p IH]; simpl; [reflexivity|].
  now rewrite Ascii.eqb_refl.
Qed.

Lemma source_flags_of (records : list record) (src : string) :
  filter (flag_is_high_connection_count src) (source_flags records) =
  if CONNECTION_THRESHOLD <? connections records src
  then [(src, connections records src, "High connection count")]
  else [].
Proof.
  unfold source_flags, connections. rewrite filter_map_swap.
  rewrite (filter_ext _ (Counter.has_key string_dec src)).
  2:{ intros [s n]. unfold flag_is_high_connection_count, Counter.has_key.
      simpl. destruct (string_dec s src) as [->|Hne].
      - apply String.eqb_refl.
      - now apply String.eqb_neq. }
  rewrite filter_comm, CounterFacts.filter_has_key
    by apply CounterFacts.wf_count_all.
  rewrite CounterFacts.get_count_all.
  destruct (count_occ string_dec (map rec_src records) src) as [|k] eqn:Hk.
  - reflexivity.
  - simpl. destruct (CONNECTION_THRESHOLD <? S k); reflexivity.
Qed.

Lemma route_flags_of (records : list record) (src dst : string) :
  filter (flag_is_high_volume src dst) (route_flags records) =
  if VOLUME_THRESHOLD <? volume records src dst
  then [(src, volume records src dst, "High volume to " +++ dst)]
  else [].
Proof.
  unfold route_flags, volume. rewrite filter_map_swap.
  rewrite (filter_ext _ (Counter.has_key string_pair_dec (src, dst))).
  2:{ intros [[s d] n]. unfold flag_is_high_volume, Counter.has_key.
      cbn [fst snd]. rewrite eqb_common_prefix.
      destruct (string_pair_dec (s, d) (src, dst)) as [E|Hne].
      - inversion E; subst. now rewrite !String.eqb_refl.
      - apply andb_false_iff.
        destruct (String.eqb_spec d dst) as [->|]; [|now left].
        destruct (String.eqb_spec s src) as [->|]; [|now right].
        congruence. }
  rewrite filter_comm, CounterFacts.filter_has_key
    by apply CounterFacts.wf_count_all.
  rewrite CounterFacts.get_count_all.
  destruct (count_occ string_pair_dec (map route records) (src, dst))
    as [|k] eqn:Hk.
  - reflexivity.
  - simpl. destruct (VOLUME_THRESHOLD <? S k); reflexivity.
Qed.

Lemma source_flags_reason (records : list record) (f : flag) :
  In f (source_flags records) -> snd f = "High connection count".
Proof.
  unfold source_flags. rewrite in_map_iff. intros [item [<- _]]. reflexivity.
Qed.

Lemma route_flags_reason (records : list record) (f : flag) :
  In f (route_flags records) ->
  exists dst, snd f = "High volume to " +++ dst.
Proof.
  unfold route_flags. rewrite in_map_iff. intros [item [<- _]].
  now exists (snd (fst item)).
Qed.

(** The events selected in the result of [analyze_window] by a test
    that refuses the unusual-port events and does not look at the
    timestamp: those of the selected threshold flags. *)
Lemma threshold_selection (test : event -> bool) (test' : flag -> bool)
  (records : list record) (n : nat) :
  (forall r, test (unusual_port_event r) = false) ->
  (forall now f, test (flag_event now f) = test' f) ->
  Forall2 (fun e f => exists i, e = flag_event (utcnow i) f)
    (filter test
       (map unusual_port_event (filter (fun r => unusual (rec_port r)) records)
        ++ stamped n (source_flags records ++ route_flags records)))
    (filter test' (source_flags records) ++ filter test' (route_flags records)).
Proof.
  intros Hport Hflag. rewrite filter_app.
  rewrite <- (filter_app test' (source_flags records)).
  rewrite (filter_none test (map _ _)).
  - simpl. now apply filter_stamped.
  - intros e He. apply in_map_iff in He. destruct He as [r [<- _]]. apply Hport.
Qed.

Lemma volume_le_connections (records : list record) (src dst : string) :
  volume records src dst <= connections records src.
Proof.
  unfold volume, connections.
  induction records as [|r records IH]; cbn [map]; [simpl; lia|].
  destruct (string_pair_dec (route r) (src, dst)) as [E|N].
  - rewrite (count_occ_cons_eq _ _ E).
    assert (Hsrc : rec_src r = src) by (inversion E; reflexivity).
    rewrite (count_occ_cons_eq _ _ Hsrc). lia.
  - rewrite (count_occ_cons_neq _ _ N).
    destruct (string_dec (rec_src r) src) as [Hsrc|Hsrc].
    + rewrite (count_occ_cons_eq _ _ Hsrc). lia.
    + rewrite (count_occ_cons_neq _ _ Hsrc). lia.
Qed.

End Analysis.

(** ** The detection rules *)

Section Rules.

Context {P : Platform}.

#[local] Arguments Nat.ltb : simpl never.

Lemma high_connection_count_hits (records : list record) (src : string)
  (n : nat) :
  Forall2 (fun e f => exists i, e = flag_event (utcnow i) f)
    (filter (is_high_connection_count src)
       (map unusual_port_event (filter (fun r => unusual (rec_port r)) records)
        ++ stamped n (source_flags records ++ route_flags records)))
    (if CONNECTION_THRESHOLD <? connections records src
     then [(src, connections records src, "High connection count")]
     else []).
Proof.
  pose proof (threshold_selection (is_high_connection_count src)
                (flag_is_high_connection_count src) records n) as H.
  rewrite source_flags_of in H.
  rewrite (filter_none _ (route_flags records)), app_nil_r in H.
  - apply H; [reflexivity|]. intros now [[s c] reason]. reflexivity.
  - intros f Hf. apply route_flags_reason in Hf. destruct Hf as [dst Hf].
    unfold flag_is_high_connection_count. rewrite Hf. reflexivity.
Qed.

Lemma high_volume_hits (records : list record) (src dst : string) (n : nat) :
  Forall2 (fun e f => exists i, e = flag_event (utcnow i) f)
    (filter (is_high_volume src dst)
       (map unusual_port_event (filter (fun r => unusual (rec_port r)) records)
        ++ stamped n (source_flags records ++ route_flags records)))
    (if VOLUME_THRESHOLD <? volume records src dst
     then [(src, volume records src dst, "High volume to " +++ dst)]
     else []).
Proof.
  pose proof (threshold_selection (is_high_volume src dst)
                (flag_is_high_volume src dst) records n) as H.
  rewrite route_flags_of in H.
  rewrite (filter_none _ (source_flags records)) in H.
  - apply H; [reflexivity|]. intros now [[s c] reason]. reflexivity.
  - intros f Hf. apply source_flags_reason in Hf.
    unfold flag_is_high_volume. rewrite Hf. reflexivity.
Qed.

(** C1. In a window holding [k] records from source [src],
    [analyze_window] returns exactly one "High connection count" event
    for [src], of magnitude [k], when [k > 100], and none when
    [k <= 100]: the threshold is strict. *)
Theorem high_connection_count_rule (records : list record) (src : string)
  (w : World Ext) :
  exists events w',
    analyze_window records w = (Returns events, w') /\
    let k := connections records src in
    let hits := filter (is_high_connection_count src) events in
    (100 < k ->
     exists i,
       hits = [threshold_event (utcnow i) src k "High connection count"])
    /\ (k <= 100 -> hits = []).
Proof.
  eexists. eexists. split; [apply analyze_window_runs|].
  intros k hits.
  pose proof (high_connection_count_hits records src (w_now w)) as H.
  fold hits in H. fold k in H. split; intros Hk.
  - assert (E : (CONNECTION_THRESHOLD <? k) = true) by now apply Nat.ltb_lt.
    rewrite E in H. apply Forall2_single_r in H.
    destruct H as [e [-> [i ->]]]. now exists i.
  - assert (E : (CONNECTION_THRESHOLD <? k) = false) by now apply Nat.ltb_ge.
    rewrite E in H. now apply Forall2_nil_r in H.
Qed.

(** C4. When [k > 100] records of a window go from [src] to [dst],
    [analyze_window] returns an event of magnitude [k] whose reason is
    "High volume to " followed by [dst], with empty destination, port
    and protocol columns (exactly one such event), and it returns the
    "High connection count" event of [src] as well. *)
Theorem high_volume_rule (records : list record) (src dst : string)
  (w : World Ext) :
  100 < volume records src dst ->
  exists events w',
    analyze_window records w = (Returns events, w') /\
    (exists i,
       filter (is_high_volume src dst) events =
       [Event (isoformat (utcnow i)) src EmptyString PortBlank EmptyString
              (volume records src dst) ("High volume to " +++ dst)])
    /\ (exists j,
          filter (is_high_connection_count src) events =
          [Event (isoformat (utcnow j)) src EmptyString PortBlank EmptyString
                 (connections records src) "High connection count"]).
Proof.
  intros Hk.
  eexists. eexists. split; [apply analyze_window_runs|]. split.
  - pose proof (high_volume_hits records src dst (w_now w)) as H.
    assert (E : (VOLUME_THRESHOLD <? volume records src dst) = true)
      by now apply Nat.ltb_lt.
    rewrite E in H. apply Forall2_single_r in H.
    destruct H as [e [-> [i ->]]]. now exists i.
  - pose proof (high_connection_count_hits records src (w_now w)) as H.
    assert (E : (CONNECTION_THRESHOLD <? connections records src) = true).
    { apply Nat.ltb_lt. pose proof (volume_le_connections records src dst).
      unfold CONNECTION_THRESHOLD. lia. }
    rewrite E in H. apply Forall2_single_r in H.
    destruct H as [e [-> [i ->]]]. now exists i.
Qed.

(** *** The two classes of events *)

Lemma threshold_flag_reason (records : list record) (f : flag) :
  In f (source_flags records ++ route_flags records) ->
  snd f = "High connection count"
  \/ exists dst, snd f = "High volume to " +++ dst.
Proof.
  intros Hf. apply in_app_or in Hf. destruct Hf as [Hf|Hf].
  - left. now apply source_flags_reason in Hf.
  - right. now apply route_flags_reason in Hf.
Qed.

Lemma stamped_not_unusual (records : list record) (n : nat) (e : event) :
  In e (stamped n (source_flags records ++ route_flags records)) ->
  has_reason "Unusual port" e = false.
Proof.
  intros He. apply In_stamped in He. destruct He as [i [[[s c] reason] [Hf ->]]].
  apply threshold_flag_reason in Hf. unfold has_reason. simpl in *.
  destruct Hf as [->|[dst ->]]; reflexivity.
Qed.

Lemma unusual_port_part (records : list record) (n : nat) :
  filter (has_reason "Unusual port")
    (map unusual_port_event (filter (fun r => unusual (rec_port r)) records)
     ++ stamped n (source_flags records ++ route_flags records)) =
  map unusual_port_event (filter (fun r => unusual (rec_port r)) records).
Proof.
  rewrite filter_app.
  rewrite (filter_all _ (map unusual_port_event _)).
  2:{ intros e He. apply in_map_iff in He. destruct He as [r [<- _]].
      reflexivity. }
  rewrite (filter_none _ (stamped _ _)).
  2:{ apply stamped_not_unusual. }
  apply app_nil_r.
Qed.

Lemma threshold_part (records : list record) (n : nat) :
  filter (fun e => negb (has_reason "Unusual port" e))
    (map unusual_port_event (filter (fun r => unusual (rec_port r)) records)
     ++ stamped n (source_flags records ++ route_flags records)) =
  stamped n (source_flags records ++ route_flags records).
Proof.
  rewrite filter_app.
  rewrite (filter_none _ (map unusual_port_event _)).
  2:{ intros e He. apply in_map_iff in He. destruct He as [r [<- _]].
      reflexivity. }
  rewrite (filter_all _ (stamped _ _)).
  2:{ intros e He. now rewrite (stamped_not_unusual records n e He). }
  reflexivity.
Qed.

(** C2, as the code has it. The records whose port is one of 1..1023
    other than 22, 80 and 443 are the unusual-port hits of the
    aggregation, and the "Unusual port" events returned by
    [analyze_window] are exactly the events of these records, one per
    record and in their order, each carrying the record's own fields
    and magnitude 1.  A record on any other port (22, 80, 443, a port
    of 1024 or more, 0 or a negative port) gives no such event. *)
Theorem unusual_port_rule (records : list record) (w : World Ext) :
  exists events w',
    analyze_window records w = (Returns events, w') /\
    snd (fold_left tally records (Counter.empty, Counter.empty, [])) =
    map (fun r => (r, "Unusual port"))
        (filter (fun r => unusual (rec_port r)) records)
    /\ filter (has_reason "Unusual port") events =
       map (fun r =>
              Event (isoformat (rec_ts r)) (rec_src r) (rec_dst r)
                    (PortInt (rec_port r)) (rec_proto r) 1 "Unusual port")
           (filter (fun r => unusual (rec_port r)) records).
Proof.
  eexists. eexists. split; [apply analyze_window_runs|]. split.
  - rewrite fold_tally. reflexivity.
  - apply unusual_port_part.
Qed.

(** C7. The list returned by [analyze_window] is made of three
    consecutive parts: the "Unusual port" events, in the arrival order
    of their records; then the "High connection count" events; then the
    "High volume to ..." events. *)
Theorem events_are_ordered_by_rule (records : list record) (w : World Ext) :
  exists events w',
    analyze_window records w = (Returns events, w') /\
    exists ports connections volumes,
      events = ports ++ connections ++ volumes
      /\ ports = map unusual_port_event
                   (filter (fun r => in_UNUSUAL_PORTS (rec_port r)) records)
      /\ Forall (fun e => ev_reason e = "Unusual port") ports
      /\ Forall (fun e => ev_reason e = "High connection count") connections
      /\ Forall (fun e => exists dst, ev_reason e = "High volume to " +++ dst)
                volumes.
Proof.
  eexists. eexists. split; [apply analyze_window_runs|].
  exists (map unusual_port_event
            (filter (fun r => unusual (rec_port r)) records)),
         (stamped (w_now w) (source_flags records)),
         (stamped (w_now w + List.length (source_flags records))
                  (route_flags records)).
  split; [now rewrite stamped_app|]. split.
  - f_equal. apply filter_ext. intros r. symmetry.
    apply in_UNUSUAL_PORTS_unusual.
  - split; [|split]; apply Forall_forall; intros e He.
    + apply in_map_iff in He. destruct He as [r [<- _]]. reflexivity.
    + apply In_stamped in He. destruct He as [i [[[s c] reason] [Hf ->]]].
      now apply source_flags_reason in Hf.
    + apply In_stamped in He. destruct He as [i [[[s c] reason] [Hf ->]]].
      now apply route_flags_reason in Hf.
Qed.

(** C8. Every "Unusual port" event carries the timestamp of the record
    that triggered it; every other event carries the reading of the
    clock taken for it while the window is evaluated: the [j]-th
    threshold event carries the [j]-th reading made by this call, and
    the call reads the clock once per threshold event. *)
Theorem event_timestamps (records : list record) (w : World Ext) :
  exists events w',
    analyze_window records w = (Returns events, w') /\
    let ports := filter (has_reason "Unusual port") events in
    let thresholds :=
      filter (fun e => negb (has_reason "Unusual port" e)) events in
    (forall j e,
        nth_error ports j = Some e ->
        exists r,
          nth_error (filter (fun r => in_UNUSUAL_PORTS (rec_port r)) records) j
          = Some r
          /\ ev_timestamp e = isoformat (rec_ts r))
    /\ w_now w' = w_now w + List.length thresholds
    /\ (forall j e,
          nth_error thresholds j = Some e ->
          ev_timestamp e = isoformat (utcnow (w_now w + j))).
Proof.
  eexists. eexists. split; [apply analyze_window_runs|].
  intros ports thresholds. subst ports thresholds.
  rewrite unusual_port_part, threshold_part, stamped_length.
  split; [|split].
  - intros j e Hj. rewrite nth_error_map in Hj.
    rewrite (filter_ext _ _ (fun r => in_UNUSUAL_PORTS_unusual (rec_port r))).
    destruct (nth_error _ j) as [r|]; [|discriminate].
    exists r. split; [reflexivity|]. inversion Hj. reflexivity.
  - reflexivity.
  - intros j e Hj. rewrite nth_error_stamped in Hj.
    destruct (nth_error _ j) as [[[s c] reason]|]; [|discriminate].
    inversion Hj. reflexivity.
Qed.

(** *** Where the source of an event comes from *)

Lemma source_flags_src (records : list record) (f : flag) :
  In f (source_flags records) -> exists r, In r records /\ fst (fst f) = rec_src r.
Proof.
  unfold source_flags. rewrite in_map_iff. intros [[s n] [<- Hin]].
  apply filter_In in Hin. destruct Hin as [Hin _].
  apply CounterFacts.counted_key in Hin. apply in_map_iff in Hin.
  destruct Hin as [r [<- Hr]]. now exists r.
Qed.

Lemma route_flags_src (records : list record) (f : flag) :
  In f (route_flags records) -> exists r, In r records /\ fst (fst f) = rec_src r.
Proof.
  unfold route_flags. rewrite in_map_iff. intros [[[s d] n] [<- Hin]].
  apply filter_In in Hin. destruct Hin as [Hin _].
  apply CounterFacts.counted_key in Hin. apply in_map_iff in Hin.
  destruct Hin as [r [E Hr]]. exists r. split; [assumption|].
  inversion E. reflexivity.
Qed.

Lemma event_src_of_record (records : list record) (n : nat) (e : event) :
  In e (map unusual_port_event (filter (fun r => unusual (rec_port r)) records)
        ++ stamped n (source_flags records ++ route_flags records)) ->
  exists r, In r records /\ ev_src e = rec_src r.
Proof.
  intros He. apply in_app_or in He. destruct He as [He|He].
  - apply in_map_iff in He. destruct He as [r [<- Hr]].
    apply filter_In in Hr. exists r. tauto.
  - apply In_stamped in He. destruct He as [i [f [Hf ->]]].
    assert (H : exists r, In r records /\ fst (fst f) = rec_src r).
    { apply in_app_or in Hf.
      destruct Hf; [now apply source_flags_src | now apply route_flags_src]. }
    destruct f as [[s c] reason]. exact H.
Qed.

Lemma accept_from (lines : list string) (buffer : list record)
  (w : World Ext) :
  exists records w',
    for_each lines
      (fun buffer line =>
         rec <- parse_line line ;;
         ret (match rec with
              | Some r => buffer ++ [r]
              | None => buffer
              end))
      buffer w = (Returns (buffer ++ records), w')
    /\ forall r, In r records ->
                exists line, In line lines /\ rec_src r = part (fields line) 1.
Proof.
  revert buffer w. induction lines as [|line lines IH]; intros buffer w.
  - exists [], w. rewrite app_nil_r. split; [reflexivity | contradiction].
  - cbn [for_each]. unfold bind at 1. unfold bind at 1.
    destruct (parse_line_returns line w) as [rec [w1 Hparse]].
    rewrite Hparse. unfold ret at 1. destruct rec as [r|].
    + destruct (IH (buffer ++ [r]) w1) as [records [w' [Hrun Hsrc]]].
      exists (r :: records), w'. split.
      * rewrite Hrun. now rewrite <- app_assoc.
      * intros r' [<-|Hr'].
        -- exists line. split; [now left|]. now apply (parse_line_src line w w1).
        -- destruct (Hsrc r' Hr') as [l [Hl E]]. exists l. split; [now right | exact E].
    + destruct (IH buffer w1) as [records [w' [Hrun Hsrc]]].
      exists records, w'. split; [exact Hrun|].
      intros r' Hr'. destruct (Hsrc r' Hr') as [l [Hl E]].
      exists l. split; [now right | exact E].
Qed.

(** C3, as the code has it. For the records accepted from any input
    lines, every event returned by [analyze_window] carries as source
    address the source of one of these records, which is the trimmed
    second field of one of the accepted lines.  (The parser places no
    condition on that field: when it is empty, so is the address.) *)
Theorem event_source_is_a_source_field (lines : list string) (w : World Ext) :
  exists records w1 events w2,
    accept_lines lines w = (Returns records, w1)
    /\ analyze_window records w1 = (Returns events, w2)
    /\ forall e, In e events ->
                exists line r,
                  In line lines /\ In r records
                  /\ rec_src r = part (fields line) 1
                  /\ ev_src e = rec_src r.
Proof.
  destruct (accept_from lines [] w) as [records [w1 [Hrun Hsrc]]].
  exists records, w1. eexists. eexists.
  split; [exact Hrun|]. split; [apply analyze_window_runs|].
  intros e He. apply event_src_of_record in He. destruct He as [r [Hr E]].
  destruct (Hsrc r Hr) as [line [Hline Hfield]].
  exists line, r. auto.
Qed.

End Rules.

(** ** The tail *)

(** C9, as the code has it. The lines yielded by [tail_log] are the
    non-empty lines read, each with the white space at both its ends
    removed: the line terminator, and any leading or other trailing
    blanks as well.  What lies between is left as it is. *)
Theorem tail_log_yields_stripped_lines (lines : list string) :
  fst (tail_log (map Line lines)) = map PyStr.strip (filter nonempty lines)
  /\ forall line,
       exists pre post,
         line = pre +++ PyStr.strip line +++ post
         /\ PyStr.all_space pre = true /\ PyStr.all_space post = true
         /\ (forall c, PyStr.first (PyStr.strip line) = Some c ->
                       PyStr.isspace c = false)
         /\ (forall c, PyStr.last (PyStr.strip line) = Some c ->
                       PyStr.isspace c = false).
Proof.
  split; [|apply PyStrFacts.strip_spec].
  induction lines as [|line lines IH]; [reflexivity|].
  cbn [map tail_log filter]. destruct line as [|c line]; [exact IH|].
  cbn [nonempty map]. destruct (tail_log (map Line lines)) as [yielded ending].
  simpl in IH. simpl. now rewrite IH.
Qed.

(** ** The scheduler *)

Section Scheduler.

Context {P : Platform}.

Lemma time_now_runs (w : World Ext) :
  time_now w = (Returns (time_time (w_time w)), after_time w).
Proof. reflexivity. Qed.



End Scheduler.

(* ================================================================= *)
(** * Further properties *)

(** ** The parser, whatever the line *)

Section ParserOutcomes.

Context {P : Platform}.

Lemma length_five {A : Type} (l : list A) :
  List.length l = 5 -> exists a b c d e, l = [a; b; c; d; e].
Proof.
  destruct l as [|a [|b [|c [|d [|e [|f l]]]]]]; try discriminate.
  intros _. now exists a, b, c, d, e.
Qed.

(** X1. A record comes out of [parse_line] only for a line of exactly
    five comma-separated fields whose trimmed first and fourth fields
    are read by [fromisoformat] and [int]; the record holds these two
    values and the three other trimmed fields, and nothing was
    logged. *)
Theorem parse_line_accepts_only_well_formed (line : string)
  (w w' : World Ext) (r : record) :
  parse_line line w = (Returns (Some r), w') ->
  w' = w
  /\ exists p0 p1 p2 p3 p4,
      PyStr.split "," line = [p0; p1; p2; p3; p4]
      /\ fromisoformat (PyStr.strip p0) = Value (rec_ts r)
      /\ rec_src r = PyStr.strip p1
      /\ rec_dst r = PyStr.strip p2
      /\ py_int (PyStr.strip p3) = Value (rec_port r)
      /\ rec_proto r = PyStr.strip p4.
Proof.
  unfold parse_line.
  destruct (List.length (fields line) =? 5) eqn:Hlen; simpl; [|discriminate].
  apply Nat.eqb_eq in Hlen. rewrite fields_length in Hlen.
  destruct (length_five _ Hlen) as [p0 [p1 [p2 [p3 [p4 Hsplit]]]]].
  unfold fields. rewrite Hsplit. unfold try_except, bind, part. simpl.
  destruct (fromisoformat (PyStr.strip p0)) as [ts|msg] eqn:Hts; simpl;
    [|discriminate].
  destruct (py_int (PyStr.strip p3)) as [port|msg] eqn:Hport; simpl;
    [|discriminate].
  intros E. inversion E; subst. split; [reflexivity|].
  exists p0, p1, p2, p3, p4. simpl. auto 10.
Qed.

(** X2. [parse_line] returns for every line and never raises.  It
    reads no clock and performs no input or output; it logs nothing
    when it returns a record, and exactly one warning, ending with the
    line, when it returns [None]. *)
Theorem parse_line_logs_iff_rejects (line : string) (w : World Ext) :
  exists rec w',
    parse_line line w = (Returns rec, w')
    /\ w_now w' = w_now w /\ w_time w' = w_time w /\ w_ext w' = w_ext w
    /\ match rec with
       | Some _ => w_log w' = w_log w
       | None => exists prefix, w_log w' = w_log w ++ [(WARNING, prefix +++ line)]
       end.
Proof.
  unfold parse_line.
  destruct (List.length (fields line) =? 5); simpl.
  - unfold try_except, bind.
    destruct (fromisoformat (part (fields line) 0)) as [ts|msg]; simpl.
    + destruct (py_int (part (fields line) 3)) as [port|msg]; simpl.
      * do 2 eexists. split; [reflexivity|]. simpl. auto.
      * do 2 eexists. split; [reflexivity|]. simpl. repeat split.
        exists ("Parsingfel: " +++ msg +++ " -- ").
        simpl. rewrite PyStrFacts.append_assoc. reflexivity.
    + do 2 eexists. split; [reflexivity|]. simpl. repeat split.
      exists ("Parsingfel: " +++ msg +++ " -- ").
      simpl. rewrite PyStrFacts.append_assoc. reflexivity.
  - do 2 eexists. split; [reflexivity|]. simpl. repeat split.
    now exists "Ogiltigt format, hoppar över: ".
Qed.

(** What [parse_line] returns is decided by the trimmed fields of the
    line alone. *)
Lemma parse_line_value (line line' : string) (w w' : World Ext) :
  fields line = fields line' ->
  fst (parse_line line w) = fst (parse_line line' w').
Proof.
  intros Hfields. unfold parse_line. rewrite Hfields.
  destruct (List.length (fields line') =? 5); simpl; [|reflexivity].
  unfold try_except, bind.
  destruct (fromisoformat (part (fields line') 0)); simpl; [|reflexivity].
  destruct (py_int (part (fields line') 3)); reflexivity.
Qed.

End ParserOutcomes.

(** ** Trimming a line and trimming its fields *)

Module TrimFacts.
Import PyStr.

Lemma split_not_nil (sep : ascii) (s : string) : split sep s <> [].
Proof.
  destruct s as [|c s]; simpl; [discriminate|].
  destruct (Ascii.eqb c sep); [discriminate|].
  destruct (split sep s); discriminate.
Qed.

Lemma space_is_no_comma (c : ascii) :
  isspace c = true -> Ascii.eqb c "," = false.
Proof.
  intros Hc. destruct (Ascii.eqb_spec c ",") as [->|]; [|reflexivity].
  discriminate Hc.
Qed.

Lemma lstrip_all_space (s : string) : all_space s = true -> lstrip s = EmptyString.
Proof.
  induction s as [|c s IH]; simpl; [reflexivity|].
  intros H. apply andb_true_iff in H. destruct H as [Hc Hs].
  rewrite Hc. now apply IH.
Qed.

Lemma rstrip_all_space (s : string) : all_space s = true -> rstrip s = EmptyString.
Proof.
  induction s as [|c s IH]; simpl; [reflexivity|].
  intros H. apply andb_true_iff in H. destruct H as [Hc Hs].
  rewrite (IH Hs), Hc. reflexivity.
Qed.

Lemma lstrip_space_app (pre s : string) :
  all_space pre = true -> lstrip (pre +++ s) = lstrip s.
Proof.
  induction pre as [|c pre IH]; simpl; [reflexivity|].
  intros H. apply andb_true_iff in H. destruct H as [Hc Hpre].
  rewrite Hc. now apply IH.
Qed.

Lemma rstrip_app_space (s post : string) :
  all_space post = true -> rstrip (s +++ post) = rstrip s.
Proof.
  intros Hpost. induction s as [|c s IH]; simpl.
  - now apply rstrip_all_space.
  - now rewrite IH.
Qed.

Lemma strip_space_app (pre s : string) :
  all_space pre = true -> strip (pre +++ s) = strip s.
Proof.
  intros Hpre. unfold strip. now rewrite lstrip_space_app.
Qed.

Lemma strip_app_space (s post : string) :
  all_space post = true -> strip (s +++ post) = strip s.
Proof.
  intros Hpost. unfold strip. induction s as [|c s IH]; simpl.
  - now rewrite (lstrip_all_space post Hpost).
  - destruct (isspace c); [exact IH|].
    change (String c (s +++ post)) with (String c s +++ post).
    now apply rstrip_app_space.
Qed.

Lemma strip_all_space (s : string) : all_space s = true -> strip s = EmptyString.
Proof.
  intros Hs. unfold strip. now rewrite (lstrip_all_space s Hs).
Qed.

Lemma split_all_space (s : string) :
  all_space s = true -> split "," s = [s].
Proof.
  induction s as [|c s IH]; simpl; [reflexivity|].
  intros H. apply andb_true_iff in H. destruct H as [Hc Hs].
  rewrite (space_is_no_comma c Hc), (IH Hs). reflexivity.
Qed.

(** Blanks before a line go to its first field. *)
Lemma split_space_app (pre s : string) :
  all_space pre = true ->
  exists field rest,
    split "," s = field :: rest
    /\ split "," (pre +++ s) = (pre +++ field) :: rest.
Proof.
  intros Hpre. induction pre as [|c pre IH]; simpl.
  - destruct (split "," s) as [|field rest] eqn:Hs.
    + now apply split_not_nil in Hs.
    + now exists field, rest.
  - simpl in Hpre. apply andb_true_iff in Hpre. destruct Hpre as [Hc Hpre].
    destruct (IH Hpre) as [field [rest [Hs Hsplit]]].
    exists field, rest. split; [exact Hs|].
    rewrite (space_is_no_comma c Hc), Hsplit. reflexivity.
Qed.

(** Blanks after a line go to its last field. *)
Lemma split_app_space (s post : string) :
  all_space post = true ->
  exists init final,
    split "," s = init ++ [final]
    /\ split "," (s +++ post) = init ++ [final +++ post].
Proof.
  intros Hpost. induction s as [|c s [init [final [Hs Hsplit]]]]; simpl.
  - exists [], EmptyString. split; [reflexivity|]. now apply split_all_space.
  - rewrite Hs, Hsplit. destruct (Ascii.eqb c ",").
    + now exists (EmptyString :: init), final.
    + destruct init as [|field init]; simpl.
      * now exists [], (String c final).
      * now exists (String c field :: init), final.
Qed.

End TrimFacts.

Section TailAndParser.

Context {P : Platform}.

Lemma fields_space_app (pre s : string) :
  PyStr.all_space pre = true -> fields (pre +++ s) = fields s.
Proof.
  intros Hpre. unfold fields.
  destruct (TrimFacts.split_space_app pre s Hpre) as [field [rest [Hs Hsplit]]].
  rewrite Hs, Hsplit. simpl. now rewrite TrimFacts.strip_space_app.
Qed.

Lemma fields_app_space (s post : string) :
  PyStr.all_space post = true -> fields (s +++ post) = fields s.
Proof.
  intros Hpost. unfold fields.
  destruct (TrimFacts.split_app_space s post Hpost)
    as [init [final [Hs Hsplit]]].
  rewrite Hs, Hsplit, !map_app. simpl. now rewrite TrimFacts.strip_app_space.
Qed.

Lemma fields_strip (line : string) : fields (PyStr.strip line) = fields line.
Proof.
  destruct (PyStrFacts.strip_spec line) as [pre [post [E [Hpre [Hpost _]]]]].
  rewrite E at 2. rewrite fields_space_app, fields_app_space by assumption.
  reflexivity.
Qed.

(** X3. The trimming that [tail_log] applies to a whole line is
    invisible to the parser: the line and the trimmed line have the
    same trimmed fields, so [parse_line] returns the same record, or
    [None], for both. *)
Theorem stripping_a_line_keeps_its_parse (line : string) (w w' : World Ext) :
  fields (PyStr.strip line) = fields line
  /\ fst (parse_line (PyStr.strip line) w) = fst (parse_line line w').
Proof.
  split; [apply fields_strip|]. apply parse_line_value, fields_strip.
Qed.

(** X4. Once a call of [readline] raises, [tail_log] yields nothing
    more, whatever could be read afterwards: it has yielded the
    non-empty lines read before, trimmed; it then ends after logging the
    failure as an error when the failure is an [Exception], and lets any
    other raised value through. *)
Theorem tail_log_stops_at_a_failed_read (lines : list string) (e : exn)
  (later : list readline_result) :
  tail_log (map Line lines ++ ReadRaises e :: later) =
  (map PyStr.strip (filter nonempty lines),
   if isinstance_Exception e
   then Finished (ERROR, "Fel vid läsning av loggfil: " +++ str_exn e)
   else Propagated e).
Proof.
  induction lines as [|line lines IH].
  - simpl. destruct (isinstance_Exception e); reflexivity.
  - cbn [map app tail_log filter]. destruct line as [|c line]; [exact IH|].
    rewrite IH. reflexivity.
Qed.

(** X5. A line made of blanks only (an empty line of the log, with its
    terminator) is not skipped by [tail_log]: it is yielded as the empty
    string, which [parse_line] rejects with a format warning. *)
Theorem blank_line_is_yielded_and_rejected (line : string) (w : World Ext) :
  PyStr.all_space line = true ->
  line <> EmptyString ->
  fst (tail_log [Line line]) = [EmptyString]
  /\ parse_line EmptyString w =
     (Returns None, add_log (WARNING, "Ogiltigt format, hoppar över: ") w).
Proof.
  intros Hspace Hne. split; [|reflexivity].
  destruct line as [|c line]; [congruence|].
  cbn [tail_log fst]. now rewrite (TrimFacts.strip_all_space _ Hspace).
Qed.

End TailAndParser.

(** ** The window, as a whole *)

Section CounterTotals.

Context {K : Type} (K_dec : forall x y : K, {x = y} + {x <> y}).

Lemma total_incr (c : Counter.t) (k : K) :
  list_sum (map snd (Counter.incr K_dec c k)) = S (list_sum (map snd c)).
Proof.
  induction c as [|[k0 n] c IH]; simpl; [reflexivity|].
  destruct (K_dec k k0); simpl; [reflexivity|]. rewrite IH. lia.
Qed.

Lemma total_fold_incr (l : list K) (c : Counter.t) :
  list_sum (map snd (fold_left (Counter.incr K_dec) l c)) =
  List.length l + list_sum (map snd c).
Proof.
  revert c. induction l as [|k l IH]; simpl; intros c; [reflexivity|].
  rewrite IH, total_incr. lia.
Qed.

Lemma total_count_all (l : list K) :
  list_sum (map snd (Counter.items (Counter.count_all K_dec l))) = List.length l.
Proof.
  unfold Counter.count_all, Counter.items. rewrite total_fold_incr. simpl. lia.
Qed.

(** Counts over a threshold of 100 take at least 101 each out of the
    total. *)
Lemma over_threshold_bound (c : list (K * nat)) :
  101 * List.length (filter (fun item : K * nat => 100 <? snd item) c)
  <= list_sum (map snd c).
Proof.
  induction c as [|[k n] c IH]; [simpl; lia|].
  change (list_sum (map snd ((k, n) :: c))) with (n + list_sum (map snd c)).
  cbn [filter snd].
  destruct (Nat.ltb_spec 100 n); cbn [List.length]; lia.
Qed.

End CounterTotals.

Section Window.

Context {P : Platform}.

#[local] Arguments Nat.ltb : simpl never.

Lemma after_now_0 (w : World Ext) : after_now 0 w = w.
Proof. destruct w. unfold after_now. simpl. now rewrite Nat.add_0_r. Qed.

Lemma source_flags_few (records : list record) :
  101 * List.length (source_flags records) <= List.length records.
Proof.
  unfold source_flags. rewrite length_map.
  etransitivity; [apply over_threshold_bound|].
  rewrite total_count_all. now rewrite length_map.
Qed.

Lemma route_flags_few (records : list record) :
  101 * List.length (route_flags records) <= List.length records.
Proof.
  unfold route_flags. rewrite length_map.
  etransitivity; [apply over_threshold_bound|].
  rewrite total_count_all. now rewrite length_map.
Qed.

Lemma In_source_flags (records : list record) (f : flag) :
  In f (source_flags records) <->
  f = (fst (fst f), connections records (fst (fst f)), "High connection count")
  /\ 100 < connections records (fst (fst f)).
Proof.
  unfold source_flags, connections. rewrite in_map_iff. split.
  - intros [[s n] [<- Hin]]. apply filter_In in Hin. destruct Hin as [Hin Hn].
    apply (CounterFacts.In_items_get string_dec) in Hin;
      [|apply CounterFacts.wf_count_all].
    destruct Hin as [Hget _]. rewrite CounterFacts.get_count_all in Hget.
    simpl in *. apply Nat.ltb_lt in Hn. rewrite Hget. auto.
  - intros [E Hk]. destruct f as [[s n] reason]. simpl in *.
    exists (s, count_occ string_dec (map rec_src records) s).
    split; [simpl; symmetry; exact E|]. apply filter_In. split.
    + rewrite <- (CounterFacts.get_count_all string_dec).
      apply CounterFacts.get_In_items. rewrite CounterFacts.get_count_all. lia.
    + now apply Nat.ltb_lt.
Qed.

Lemma In_route_flags (records : list record) (f : flag) :
  In f (route_flags records) <->
  exists dst,
    f = (fst (fst f), volume records (fst (fst f)) dst,
         "High volume to " +++ dst)
    /\ 100 < volume records (fst (fst f)) dst.
Proof.
  unfold route_flags, volume. rewrite in_map_iff. split.
  - intros [[[s d] n] [<- Hin]]. apply filter_In in Hin.
    destruct Hin as [Hin Hn].
    apply (CounterFacts.In_items_get string_pair_dec) in Hin;
      [|apply CounterFacts.wf_count_all].
    destruct Hin as [Hget _]. rewrite CounterFacts.get_count_all in Hget.
    simpl in *. apply Nat.ltb_lt in Hn. exists d. rewrite Hget. auto.
  - intros [dst [E Hk]]. destruct f as [[s n] reason]. simpl in *.
    exists ((s, dst), count_occ string_pair_dec (map route records) (s, dst)).
    split; [simpl; symmetry; exact E|]. apply filter_In. split.
    + rewrite <- (CounterFacts.get_count_all string_pair_dec).
      apply CounterFacts.get_In_items. rewrite CounterFacts.get_count_all. lia.
    + now apply Nat.ltb_lt.
Qed.

Lemma quiet_flags (records : list record) :
  (forall src, connections records src <= 100) ->
  source_flags records = [] /\ route_flags records = [].
Proof.
  intros Hquiet. split.
  - destruct (source_flags records) as [|f fl] eqn:E; [reflexivity|].
    assert (Hf : In f (source_flags records)) by (rewrite E; now left).
    apply In_source_flags in Hf. destruct Hf as [_ Hk].
    specialize (Hquiet (fst (fst f))). lia.
  - destruct (route_flags records) as [|f fl] eqn:E; [reflexivity|].
    assert (Hf : In f (route_flags records)) by (rewrite E; now left).
    apply In_route_flags in Hf. destruct Hf as [dst [_ Hk]].
    pose proof (volume_le_connections records (fst (fst f)) dst).
    specialize (Hquiet (fst (fst f))). lia.
Qed.

Lemma quiet_window_runs (records : list record) (w : World Ext) :
  (forall r, In r records -> in_UNUSUAL_PORTS (rec_port r) = false) ->
  (forall src, connections records src <= 100) ->
  analyze_window records w = (Returns [], w).
Proof.
  intros Hports Hquiet. rewrite analyze_window_runs.
  destruct (quiet_flags records Hquiet) as [-> ->].
  rewrite (filter_none _ records).
  - simpl. now rewrite after_now_0.
  - intros r Hr. rewrite <- in_UNUSUAL_PORTS_unusual. now apply Hports.
Qed.

(** X6. The first loop of [analyze_window] counts every record once:
    [src_count] holds, for each source, the number of records from it
    (0 when there is none), [dst_count] holds the like for each pair of
    a source and a destination, and the counts of each counter add up
    to the number of records. *)
Theorem tallies_count_every_record (records : list record) :
  let st := fold_left tally records (Counter.empty, Counter.empty, []) in
  let src_count := fst (fst st) in
  let dst_count := snd (fst st) in
  (forall src, Counter.get string_dec src_count src = connections records src)
  /\ (forall src dst,
        Counter.get string_pair_dec dst_count (src, dst)
        = volume records src dst)
  /\ list_sum (map snd (Counter.items src_count)) = List.length records
  /\ list_sum (map snd (Counter.items dst_count)) = List.length records.
Proof.
  cbv zeta. rewrite fold_tally. cbn [fst snd]. repeat split.
  - intros src. apply (CounterFacts.get_count_all string_dec).
  - intros src dst. apply (CounterFacts.get_count_all string_pair_dec).
  - unfold Counter.items. rewrite (total_fold_incr string_dec), length_map.
    simpl. lia.
  - unfold Counter.items. rewrite (total_fold_incr string_pair_dec), length_map.
    simpl. lia.
Qed.

(** X7. [analyze_window] returns no event exactly when no record of the
    window is on an unusual port and no source has more than 100
    records in it; the world is then left as it was. *)
Theorem nothing_suspicious_iff (records : list record) (w : World Ext) :
  analyze_window records w = (Returns [], w)
  <-> (forall r, In r records -> in_UNUSUAL_PORTS (rec_port r) = false)
      /\ (forall src, connections records src <= 100).
Proof.
  split.
  - rewrite analyze_window_runs. intros E. inversion E as [[Hevents Hw]].
    apply app_eq_nil in Hevents. destruct Hevents as [Hports Hflags].
    split.
    + intros r Hr. rewrite in_UNUSUAL_PORTS_unusual.
      destruct (unusual (rec_port r)) eqn:Hu; [|reflexivity].
      apply map_eq_nil in Hports.
      assert (Hin : In r (filter (fun r => unusual (rec_port r)) records))
        by (apply filter_In; auto).
      rewrite Hports in Hin. contradiction.
    + intros src. destruct (Nat.le_gt_cases (connections records src) 100)
        as [Hle|Hgt]; [exact Hle|].
      assert (Hlen : List.length
                       (stamped (w_now w)
                          (source_flags records ++ route_flags records)) = 0)
        by now rewrite Hflags.
      rewrite stamped_length, length_app in Hlen.
      assert (Hf : In (src, connections records src, "High connection count")
                      (source_flags records))
        by (apply In_source_flags; simpl; auto).
      destruct (source_flags records); [contradiction | simpl in Hlen; lia].
  - intros [Hports Hquiet]. now apply quiet_window_runs.
Qed.

(** X8. [analyze_window] raises no alarm without cause.  Each event it
    returns is the event of a record of the window on an unusual port,
    or a "High connection count" event whose magnitude is the number,
    above 100, of records from its source, or a "High volume to ..."
    event whose magnitude is the number, above 100, of records from its
    source to the destination named in its reason. *)
Theorem every_event_is_justified (records : list record) (w : World Ext) :
  exists events w',
    analyze_window records w = (Returns events, w')
    /\ forall e, In e events ->
         (exists r, In r records
                    /\ in_UNUSUAL_PORTS (rec_port r) = true
                    /\ e = unusual_port_event r)
         \/ (exists i,
               100 < connections records (ev_src e)
               /\ e = threshold_event (utcnow i) (ev_src e)
                        (connections records (ev_src e))
                        "High connection count")
         \/ (exists i dst,
               100 < volume records (ev_src e) dst
               /\ e = threshold_event (utcnow i) (ev_src e)
                        (volume records (ev_src e) dst)
                        ("High volume to " +++ dst)).
Proof.
  eexists. eexists. split; [apply analyze_window_runs|].
  intros e He. apply in_app_or in He. destruct He as [He|He].
  - left. apply in_map_iff in He. destruct He as [r [<- Hr]].
    apply filter_In in Hr. destruct Hr as [Hr Hu].
    exists r. rewrite in_UNUSUAL_PORTS_unusual. auto.
  - right. apply In_stamped in He. destruct He as [i [f [Hf ->]]].
    apply in_app_or in Hf. destruct Hf as [Hf|Hf].
    + left. apply In_source_flags in Hf. destruct Hf as [E Hk].
      exists i. destruct f as [[s n] reason]. simpl in *.
      split; [exact Hk|]. inversion E as [[Hn Hreason]].
      rewrite <- Hn. reflexivity.
    + right. apply In_route_flags in Hf. destruct Hf as [dst [E Hk]].
      exists i, dst. destruct f as [[s n] reason]. simpl in *.
      split; [exact Hk|]. inversion E as [[Hn Hreason]].
      rewrite <- Hn. reflexivity.
Qed.

(** X9. Alarms on counts are few: a window of [n] records gives at most
    [n / 101] "High connection count" events and at most twice as many
    threshold events in all; a window of 100 records or fewer gives
    none, and the clock is then not read. *)
Theorem threshold_events_are_few (records : list record) (w : World Ext) :
  exists events w',
    analyze_window records w = (Returns events, w')
    /\ 101 * List.length (filter (has_reason "High connection count") events)
       <= List.length records
    /\ 101 * List.length
               (filter (fun e => negb (has_reason "Unusual port" e)) events)
       <= 2 * List.length records
    /\ (List.length records <= 100 ->
        filter (fun e => negb (has_reason "Unusual port" e)) events = []
        /\ w' = w).
Proof.
  eexists. eexists. split; [apply analyze_window_runs|].
  pose proof (source_flags_few records) as Hs.
  pose proof (route_flags_few records) as Hr.
  rewrite threshold_part, stamped_length, length_app.
  split; [|split].
  - pose proof (threshold_selection (has_reason "High connection count")
                  (fun f : flag => String.eqb (snd f) "High connection count")
                  records (w_now w)) as H.
    rewrite (filter_none _ (route_flags records)), app_nil_r in H.
    + apply Forall2_length in H; [|reflexivity|].
      * rewrite H.
        pose proof (filter_length_le
                      (fun f : flag => String.eqb (snd f) "High connection count")
                      (source_flags records)).
        lia.
      * intros now [[s c] reason]. reflexivity.
    + intros f Hf. apply route_flags_reason in Hf. destruct Hf as [dst ->].
      reflexivity.
  - lia.
  - intros Hn.
    destruct (source_flags records); [|simpl in Hs; lia].
    destruct (route_flags records); [|simpl in Hr; lia].
    simpl. split; [reflexivity | apply after_now_0].
Qed.

(** X10. [analyze_window] always returns; it logs nothing, does not
    read [time.time] and performs no input or output.  Its only effect
    is to read the UTC clock. *)
Theorem analyze_window_only_reads_the_clock (records : list record)
  (w : World Ext) :
  exists events w',
    analyze_window records w = (Returns events, w')
    /\ w_log w' = w_log w /\ w_time w' = w_time w /\ w_ext w' = w_ext w
    /\ w_now w <= w_now w'.
Proof.
  eexists. eexists. split; [apply analyze_window_runs|].
  simpl. repeat split. lia.
Qed.

(** X15. When the window that closes holds nothing suspicious, the
    [try] block of [main] only logs that fact: no report is written, no
    address is blocked and no mail is sent. *)
Theorem quiet_window_triggers_no_response (records : list record)
  (w : World Ext) :
  (forall r, In r records -> in_UNUSUAL_PORTS (rec_port r) = false) ->
  (forall src, connections records src <= 100) ->
  analyse_and_respond records w =
  (Returns tt, add_log (INFO, "Inga misstänkta aktiviteter.") w).
Proof.
  intros Hports Hquiet. unfold analyse_and_respond, bind.
  rewrite (quiet_window_runs records w Hports Hquiet). reflexivity.
Qed.

End Window.

(** ** The responses and the scheduler *)

Section Responses.

Context {P : Platform}.

(** A [try] whose handler only logs lets no [Exception] out. *)
Lemma guarded (body : M Ext unit) (prefix : string) (w w' : World Ext)
  (e : exn) :
  try_except body (fun e => logging ERROR (prefix +++ str_exn e)) w
  = (Raises e, w') ->
  isinstance_Exception e = false.
Proof.
  unfold try_except. destruct (body w) as [[[]|e0] w0]; [discriminate|].
  destruct (isinstance_Exception e0) eqn:He0; [discriminate|].
  intros E. inversion E; subst. exact He0.
Qed.

(** X11. [send_email] lets no [Exception] reach its caller: when the
    mail transport raises one, the failure is logged as an error and
    [send_email] returns. *)
Theorem send_email_contains_failures (subject body : string) (w : World Ext) :
  (forall e w',
      send_email subject body w = (Raises e, w') ->
      isinstance_Exception e = false)
  /\ (forall e w1,
        smtp_send (nonempty SMTP_USER && nonempty SMTP_PASS) subject body w
        = (Raises e, w1) ->
        isinstance_Exception e = true ->
        send_email subject body w =
        (Returns tt,
         add_log (ERROR, "Misslyckades skicka mail: " +++ str_exn e) w1)).
Proof.
  split.
  - intros e w'. apply guarded.
  - intros e w1 Hsend He. unfold send_email.
    rewrite (try_except_handles _ _ w w1 e); [reflexivity| |exact He].
    unfold bind. now rewrite Hsend.
Qed.

(** X12. [block_ip] lets no [Exception] reach its caller: when the
    firewall command raises one, the failure is logged as an error and
    [block_ip] returns. *)
Theorem block_ip_contains_failures (ip : string) (w : World Ext) :
  (forall e w',
      block_ip ip w = (Raises e, w') -> isinstance_Exception e = false)
  /\ (forall e w1,
        ufw_deny ip w = (Raises e, w1) ->
        isinstance_Exception e = true ->
        block_ip ip w =
        (Returns tt, add_log (ERROR, "Blockeringsfel: " +++ str_exn e) w1)).
Proof.
  split.
  - intros e w'. apply guarded.
  - intros e w1 Hdeny He. unfold block_ip.
    rewrite (try_except_handles _ _ w w1 e); [reflexivity| |exact He].
    unfold bind. now rewrite Hdeny.
Qed.

(** X13. Once [os.path.exists] has answered, [write_report] lets no
    [Exception] reach its caller: it asks for the header row exactly
    when the report file was absent, and when the write raises an
    [Exception] the failure is logged as an error and [write_report]
    returns. *)
Theorem write_report_contains_failures (events : list event)
  (present : bool) (w w1 : World Ext) :
  os_path_exists REPORT_FILE w = (Returns present, w1) ->
  (forall e w',
      write_report events w = (Raises e, w') ->
      isinstance_Exception e = false)
  /\ (forall e w2,
        csv_append REPORT_FILE (if present then [] else [report_header])
                   events w1 = (Raises e, w2) ->
        isinstance_Exception e = true ->
        write_report events w =
        (Returns tt, add_log (ERROR, "Rapportfel: " +++ str_exn e) w2)).
Proof.
  intros Hpresent.
  assert (Hrun :
            write_report events w =
            try_except
              (csv_append REPORT_FILE (if present then [] else [report_header])
                          events ;;;
               logging INFO ("Rapport uppdaterad med "
                             +++ PyStr.of_nat (List.length events)
                             +++ " events."))
              (fun e => logging ERROR ("Rapportfel: " +++ str_exn e)) w1).
  { unfold write_report. unfold bind at 1. rewrite Hpresent.
    destruct present; reflexivity. }
  rewrite Hrun. split.
  - intros e w'. apply guarded.
  - intros e w2 Hwrite He.
    rewrite (try_except_handles _ _ w1 w2 e); [reflexivity| |exact He].
    unfold bind. now rewrite Hwrite.
Qed.

End Responses.

Section SchedulerRuns.

Context {P : Platform}.

Lemma flush_raises_no_Exception (buffer : list record) (w w' : World Ext)
  (e : exn) :
  flush buffer w = (Raises e, w') -> isinstance_Exception e = false.
Proof.
  unfold flush. unfold bind at 1.
  destruct (try_except _ _ w) as [[[]|e0] w0] eqn:Htry.
  - unfold bind. rewrite time_now_runs. discriminate.
  - intros E. inversion E; subst. exact (guarded _ _ _ _ _ Htry).
Qed.

Lemma main_step_raises_no_Exception (st : scheduler) (line : string)
  (w w' : World Ext) (e : exn) :
  main_step st line w = (Raises e, w') -> isinstance_Exception e = false.
Proof.
  destruct st as [buffer start]. unfold main_step. unfold bind at 1.
  destruct (parse_line_returns line w) as [rec [w1 Hparse]]. rewrite Hparse.
  unfold bind at 1. rewrite time_now_runs.
  destruct (elapsed_ge _ _ _); [apply flush_raises_no_Exception|].
  discriminate.
Qed.

(** X14. The loop of [main] is never left by an [Exception]: over any
    lines and from any state, whatever the parser, the analysis and the
    responses do, it either returns or is left by a raised value that is
    not an [Exception] (an interrupt). *)
Theorem main_loop_raises_no_Exception (lines : list string) (st : scheduler)
  (w w' : World Ext) (e : exn) :
  main_loop lines st w = (Raises e, w') -> isinstance_Exception e = false.
Proof.
  unfold main_loop. revert st w.
  induction lines as [|line lines IH]; intros st w; cbn [for_each].
  - discriminate.
  - unfold bind at 1.
    destruct (main_step st line w) as [[st1|e1] w1] eqn:Hstep.
    + apply IH.
    + intros E. inversion E; subst.
      exact (main_step_raises_no_Exception _ _ _ _ _ Hstep).
Qed.

(** What [parse_line] returns and logs does not depend on the world. *)
Lemma parse_line_effect (line : string) :
  exists rec entries,
    forall w : World Ext,
      parse_line line w =
      (Returns rec,
       MkWorld (w_log w ++ entries) (w_now w) (w_time w) (w_ext w)).
Proof.
  unfold parse_line.
  destruct (List.length (fields line) =? 5); simpl.
  - unfold try_except, bind.
    destruct (fromisoformat (part (fields line) 0)) as [ts|msg]; simpl.
    + destruct (py_int (part (fields line) 3)) as [port|msg]; simpl.
      * eexists. exists []. intros [l n t x]. simpl. now rewrite app_nil_r.
      * eexists. eexists. intros w. reflexivity.
    + eexists. eexists. intros w. reflexivity.
  - eexists. eexists. intros w. reflexivity.
Qed.

Lemma open_window (lines : list string) (start : Time) :
  exists records entries,
    (forall buffer (w : World Ext),
        for_each lines
          (fun buffer line =>
             rec <- parse_line line ;;
             ret (match rec with
                  | Some r => buffer ++ [r]
                  | None => buffer
                  end))
          buffer w =
        (Returns (buffer ++ records),
         MkWorld (w_log w ++ entries) (w_now w) (w_time w) (w_ext w)))
    /\ (forall buffer (w : World Ext),
          (forall i, i < List.length lines ->
                     elapsed_ge (time_time (w_time w + i)) start
                                ANALYSIS_INTERVAL = false) ->
          main_loop lines (buffer, start) w =
          (Returns (buffer ++ records, start),
           MkWorld (w_log w ++ entries) (w_now w)
                   (w_time w + List.length lines) (w_ext w))).
Proof.
  unfold main_loop.
  induction lines as [|line lines [records [entries [IHa IHm]]]].
  - exists [], []. split; [intros buffer [l n t x] | intros buffer [l n t x] _];
      simpl; unfold ret; now rewrite !app_nil_r, ?Nat.add_0_r.
  - destruct (parse_line_effect line) as [rec [entry Hparse]].
    exists (match rec with Some r => r :: records | None => records end),
           (entry ++ entries).
    split; [intros buffer w | intros buffer w Hopen]; cbn [for_each].
    + unfold bind at 1. unfold bind at 1. rewrite Hparse. unfold ret at 1.
      rewrite IHa. destruct rec; simpl; rewrite <- ?app_assoc; reflexivity.
    + unfold bind at 1. unfold main_step. unfold bind at 1. rewrite Hparse.
      unfold bind at 1. rewrite time_now_runs. cbn [w_time].
      pose proof (Hopen 0) as H0. rewrite Nat.add_0_r in H0.
      rewrite H0 by (simpl; lia). unfold ret at 1.
      rewrite IHm.
      * replace (w_time w + List.length (line :: lines))
          with (S (w_time w) + List.length lines) by (simpl; lia).
        destruct rec; simpl; rewrite <- ?app_assoc; reflexivity.
      * intros i Hi. cbn [after_time w_time].
        replace (S (w_time w) + i) with (w_time w + S i) by lia.
        apply Hopen. simpl. lia.
Qed.

(** X16. While the window stays open (the interval has not elapsed at
    any of the readings of the clock that the run makes, one per line),
    the loop of [main] keeps [start] and appends to [buffer] exactly the
    records of the accepted lines, in order: no record is dropped or
    counted twice, and rejected lines add nothing.  It logs the
    parser's warnings, reads [time.time] once per line and does nothing
    else. *)
Theorem open_window_accumulates (lines : list string) (buffer : list record)
  (start : Time) (w : World Ext) :
  (forall i, i < List.length lines ->
             elapsed_ge (time_time (w_time w + i)) start ANALYSIS_INTERVAL
             = false) ->
  exists records w1,
    accept_lines lines w = (Returns records, w1)
    /\ main_loop lines (buffer, start) w =
       (Returns (buffer ++ records, start),
        MkWorld (w_log w1) (w_now w) (w_time w + List.length lines) (w_ext w)).
Proof.
  intros Hopen.
  destruct (open_window lines start) as [records [entries [Ha Hm]]].
  exists records. eexists. split.
  - unfold accept_lines. rewrite Ha. reflexivity.
  - rewrite (Hm buffer w Hopen). reflexivity.
Qed.

End SchedulerRuns.

(** ** The order of the records, and the end of the log *)

Section OrderAndEnd.

Context {P : Platform}.

#[local] Arguments Nat.ltb : simpl never.

Lemma In_stamped_intro (n : nat) (flags : list flag) (f : flag) :
  In f flags -> exists i, In (flag_event (utcnow i) f) (stamped n flags).
Proof.
  revert n. induction flags as [|f0 fl IH]; simpl; intros n; [contradiction|].
  intros [->|Hin].
  - exists n. now left.
  - destruct (IH (S n) Hin) as [i Hi]. exists i. now right.
Qed.

Lemma Permutation_filter {A : Type} (f : A -> bool) (l l' : list A) :
  Permutation l l' -> Permutation (filter f l) (filter f l').
Proof.
  induction 1 as [|x l l' _ IH|x y l|l l' l'' _ IH1 _ IH2]; simpl.
  - constructor.
  - destruct (f x); [now constructor | exact IH].
  - destruct (f x), (f y); try reflexivity. apply perm_swap.
  - now transitivity (filter f l').
Qed.

Lemma connections_Permutation (records records' : list record) (src : string) :
  Permutation records records' ->
  connections records src = connections records' src.
Proof.
  intros Hperm. unfold connections.
  apply (Permutation_count_occ string_dec). now apply Permutation_map.
Qed.

Lemma volume_Permutation (records records' : list record) (src dst : string) :
  Permutation records records' ->
  volume records src dst = volume records' src dst.
Proof.
  intros Hperm. unfold volume.
  apply (Permutation_count_occ string_pair_dec). now apply Permutation_map.
Qed.

(** The threshold events of a window, whatever their timestamps, are
    the events of its flags. *)
Lemma threshold_event_flagged (records : list record) (n : nat)
  (src : string) (cnt : nat) (reason : string) :
  (exists i,
      In (threshold_event (utcnow i) src cnt reason)
         (map unusual_port_event
            (filter (fun r => unusual (rec_port r)) records)
          ++ stamped n (source_flags records ++ route_flags records)))
  <-> In (src, cnt, reason) (source_flags records ++ route_flags records).
Proof.
  split.
  - intros [i Hin]. apply in_app_or in Hin. destruct Hin as [Hin|Hin].
    + apply in_map_iff in Hin. destruct Hin as [r [E _]]. discriminate E.
    + apply In_stamped in Hin. destruct Hin as [j [[[s c] why] [Hf E]]].
      inversion E; subst. exact Hf.
  - intros Hf. destruct (In_stamped_intro n _ _ Hf) as [i Hi].
    exists i. apply in_or_app. right. exact Hi.
Qed.

Lemma flags_Permutation (records records' : list record) (f : flag) :
  Permutation records records' ->
  In f (source_flags records ++ route_flags records) ->
  In f (source_flags records' ++ route_flags records').
Proof.
  intros Hperm Hf. apply in_or_app. apply in_app_or in Hf.
  destruct Hf as [Hf|Hf]; [left|right].
  - apply In_source_flags in Hf. apply In_source_flags.
    now rewrite <- !(connections_Permutation records records' _ Hperm).
  - apply In_route_flags in Hf. destruct Hf as [dst Hf].
    apply In_route_flags. exists dst.
    now rewrite <- !(volume_Permutation records records' _ _ Hperm).
Qed.

(** X17. Which alarms a window raises does not depend on the order of
    its records.  For two windows holding the same records in different
    orders, [analyze_window] returns the same threshold events up to
    their timestamps (same source, magnitude and reason), and the same
    unusual-port events up to their order. *)
Theorem alarms_do_not_depend_on_order (records records' : list record)
  (w w' : World Ext) :
  Permutation records records' ->
  exists events w1 events' w1',
    analyze_window records w = (Returns events, w1)
    /\ analyze_window records' w' = (Returns events', w1')
    /\ (forall src cnt reason,
          (exists i, In (threshold_event (utcnow i) src cnt reason) events)
          <-> (exists j, In (threshold_event (utcnow j) src cnt reason) events'))
    /\ Permutation (filter (has_reason "Unusual port") events)
                   (filter (has_reason "Unusual port") events').
Proof.
  intros Hperm. do 4 eexists.
  split; [apply analyze_window_runs|]. split; [apply analyze_window_runs|].
  split.
  - intros src cnt reason. rewrite !threshold_event_flagged.
    split; apply flags_Permutation; [exact Hperm | now symmetry].
  - rewrite !unusual_port_part. apply Permutation_map.
    now apply Permutation_filter.
Qed.

End OrderAndEnd.

Section EndOfLog.

Context {P : Platform}.

(** X18. When reading the log fails with an [Exception], [main] stops
    cleanly: the lines read before the failure have been processed by
    the loop, trimmed and in order, the failure is logged as an error,
    and [main] returns instead of raising; what could be read after the
    failure is not looked at. *)
Theorem main_stops_cleanly_when_reading_fails (lines : list string)
  (e : exn) (later : list readline_result) (st : scheduler)
  (w w0 w1 : World Ext) :
  isinstance_Exception e = true ->
  ensure_log_file_exists w = (Returns tt, w0) ->
  main_loop (map PyStr.strip (filter nonempty lines))
            ([], time_time (w_time w0)) (after_time w0)
  = (Returns st, w1) ->
  main (map Line lines ++ ReadRaises e :: later) w =
  (Returns st,
   add_log (ERROR, "Fel vid läsning av loggfil: " +++ str_exn e) w1).
Proof.
  intros He Hensure.
  assert (Htail : tail_log (map Line lines ++ ReadRaises e :: later) =
                  (map PyStr.strip (filter nonempty lines),
                   Finished (ERROR,
                             "Fel vid läsning av loggfil: " +++ str_exn e))).
  { induction lines as [|line lines IH].
    - simpl. now rewrite He.
    - cbn [map app tail_log filter]. destruct line as [|c line]; [exact IH|].
      rewrite IH. reflexivity. }
  intros Hloop.
  unfold main. unfold bind at 1. rewrite Hensure, Htail.
  unfold bind at 1. rewrite time_now_runs.
  unfold bind at 1. rewrite Hloop.
  reflexivity.
Qed.

End EndOfLog.

(** ** Failures downstream of the scheduler *)

Section SchedulerBoundary.

Context {P : Platform}.






End SchedulerBoundary.

(* ================================================================= *)
(** * Runs on the reference platform *)

Module Runs.
Import Reference.

Local Abbreviation conn := (connection host noon).

Lemma high_connection_count_rule_witness :
  (exists events w',
      analyze_window (repeat (conn 22) 101) world0 = (Returns events, w')
      /\ exists i,
          filter (is_high_connection_count "1.1.1.1") events =
          [threshold_event (P := host) (utcnow i) "1.1.1.1" 101
                           "High connection count"])
  /\ (exists events w',
         analyze_window (repeat (conn 22) 100) world0 = (Returns events, w')
         /\ filter (is_high_connection_count "1.1.1.1") events = []).
Proof.
  split.
  - destruct (high_connection_count_rule (P := host) (repeat (conn 22) 101)
                "1.1.1.1" world0) as [events [w' [Hrun H]]].
    cbv zeta in H. destruct H as [Hhi _].
    exists events, w'. split; [exact Hrun|].
    apply Hhi. vm_compute. lia.
  - destruct (high_connection_count_rule (P := host) (repeat (conn 22) 100)
                "1.1.1.1" world0) as [events [w' [Hrun H]]].
    cbv zeta in H. destruct H as [_ Hlo].
    exists events, w'. split; [exact Hrun|].
    apply Hlo. vm_compute. lia.
Defined.

Lemma unusual_port_rule_witness :
  exists events w',
    analyze_window [conn 23; conn 80; conn 8080; conn 1023] world0
    = (Returns events, w')
    /\ filter (has_reason "Unusual port") events =
       [Event "2025-05-14T12:00:00" "1.1.1.1" "2.2.2.2" (PortInt 23) "TCP" 1
              "Unusual port";
        Event "2025-05-14T12:00:00" "1.1.1.1" "2.2.2.2" (PortInt 1023) "TCP" 1
              "Unusual port"].
Proof.
  destruct (unusual_port_rule (P := host)
              [conn 23; conn 80; conn 8080; conn 1023] world0)
    as [events [w' [Hrun [_ Hports]]]].
  exists events, w'. split; [exact Hrun | exact Hports].
Defined.

(** Against C2 as stated: the parser accepts port 0 and port -1, both
    below 1024 and none of 22, 80 and 443, and neither is an
    unusual-port hit or gives an event. *)
Lemma port_zero_is_not_flagged :
  parse_line (P := host) "2025-05-14T12:00:00,1.1.1.1,2.2.2.2,0,TCP" world0
  = (Returns (Some (conn 0)), world0)
  /\ (rec_port (conn 0) < 1024)%Z
  /\ ~ In (rec_port (conn 0)) [22; 80; 443]%Z
  /\ snd (fold_left tally [conn 0] (Counter.empty, Counter.empty, [])) = []
  /\ analyze_window [conn 0] world0 = (Returns [], world0)
  /\ parse_line (P := host) "2025-05-14T12:00:00,1.1.1.1,2.2.2.2,-1,TCP" world0
     = (Returns (Some (conn (-1))), world0)
  /\ analyze_window [conn (-1)] world0 = (Returns [], world0).
Proof.
  split; [reflexivity|].
  split; [reflexivity|].
  split; [intros [H|[H|[H|[]]]]; discriminate H|].
  repeat split; reflexivity.
Qed.

(** Against C3 as stated: a line whose source field is empty is
    accepted, and its event has an empty source address. *)
Lemma empty_source_is_flagged :
  accept_lines (P := host) ["2025-05-14T12:00:00,,10.0.0.1,23,TCP"] world0
  = (Returns [Rec (P := host) noon "" "10.0.0.1" 23 "TCP"], world0)
  /\ analyze_window [Rec (P := host) noon "" "10.0.0.1" 23 "TCP"] world0
     = (Returns [Event "2025-05-14T12:00:00" "" "10.0.0.1" (PortInt 23) "TCP"
                       1 "Unusual port"], world0)
  /\ ev_src (Event "2025-05-14T12:00:00" "" "10.0.0.1" (PortInt 23) "TCP"
                   1 "Unusual port") = "".
Proof.
  repeat split; reflexivity.
Qed.

Lemma event_source_is_a_source_field_witness :
  exists records w1 events w2,
    accept_lines (P := host)
      ["2025-05-14T12:00:00, 192.168.0.1 ,10.0.0.1,23,TCP"; "foo,bar"] world0
    = (Returns records, w1)
    /\ analyze_window records w1 = (Returns events, w2)
    /\ forall e, In e events ->
                exists line r,
                  In line ["2025-05-14T12:00:00, 192.168.0.1 ,10.0.0.1,23,TCP";
                           "foo,bar"]
                  /\ In r records
                  /\ rec_src r = part (fields line) 1
                  /\ ev_src e = rec_src r.
Proof.
  exact (event_source_is_a_source_field (P := host)
           ["2025-05-14T12:00:00, 192.168.0.1 ,10.0.0.1,23,TCP"; "foo,bar"]
           world0).
Defined.

Lemma high_volume_rule_witness :
  exists events w',
    analyze_window (repeat (conn 22) 101) world0 = (Returns events, w')
    /\ (exists i,
          filter (is_high_volume "1.1.1.1" "2.2.2.2") events =
          [Event (isoformat (Platform := host) (utcnow i)) "1.1.1.1" "" PortBlank ""
                 101 "High volume to 2.2.2.2"])
    /\ (exists j,
          filter (is_high_connection_count "1.1.1.1") events =
          [Event (isoformat (Platform := host) (utcnow j)) "1.1.1.1" "" PortBlank ""
                 101 "High connection count"]).
Proof.
  apply (high_volume_rule (P := host) (repeat (conn 22) 101)
           "1.1.1.1" "2.2.2.2" world0).
  vm_compute. lia.
Defined.

Lemma parse_line_valid_witness :
  parse_line (P := host)
    " 2025-05-14T12:00:00, 192.168.0.1 ,10.0.0.1 , 80 ,TCP " world0
  = (Returns (Some (Rec (P := host) noon "192.168.0.1" "10.0.0.1" 80 "TCP")),
     world0).
Proof.
  apply (parse_line_valid (P := host)
           " 2025-05-14T12:00:00, 192.168.0.1 ,10.0.0.1 , 80 ,TCP "
           " 2025-05-14T12:00:00" " 192.168.0.1 " "10.0.0.1 " " 80 " "TCP "
           noon 80%Z world0); reflexivity.
Defined.

Lemma parse_line_invalid_witness :
  (exists prefix,
      parse_line (P := host) "foo,bar" world0
      = (Returns None,
         add_log (P := host) (WARNING, prefix +++ "foo,bar") world0))
  /\ (exists prefix,
         parse_line (P := host) "yesterday,1.1.1.1,2.2.2.2,80,TCP" world0
         = (Returns None,
            add_log (P := host)
              (WARNING, prefix +++ "yesterday,1.1.1.1,2.2.2.2,80,TCP")
              world0))
  /\ (exists prefix,
         parse_line (P := host) "2025-05-14T12:00:00,1.1.1.1,2.2.2.2,http,TCP"
                    world0
         = (Returns None,
            add_log (P := host)
              (WARNING,
               prefix +++ "2025-05-14T12:00:00,1.1.1.1,2.2.2.2,http,TCP")
              world0)).
Proof.
  split; [|split].
  - apply (parse_line_invalid (P := host) "foo,bar" world0).
    left. vm_compute. lia.
  - apply (parse_line_invalid (P := host)
             "yesterday,1.1.1.1,2.2.2.2,80,TCP" world0).
    right. left. eexists. reflexivity.
  - apply (parse_line_invalid (P := host)
             "2025-05-14T12:00:00,1.1.1.1,2.2.2.2,http,TCP" world0).
    right. right. eexists. reflexivity.
Defined.

Lemma events_are_ordered_by_rule_witness :
  exists events w',
    analyze_window (conn 23 :: repeat (conn 80) 100) world0
    = (Returns events, w')
    /\ exists ports connections volumes,
        events = ports ++ connections ++ volumes
        /\ ports = map unusual_port_event
                     (filter (fun r => in_UNUSUAL_PORTS (rec_port r))
                        (conn 23 :: repeat (conn 80) 100))
        /\ Forall (fun e => ev_reason e = "Unusual port") ports
        /\ Forall (fun e => ev_reason e = "High connection count") connections
        /\ Forall (fun e => exists dst, ev_reason e = "High volume to " +++ dst)
                  volumes.
Proof.
  exact (events_are_ordered_by_rule (P := host)
           (conn 23 :: repeat (conn 80) 100) world0).
Defined.

Lemma event_timestamps_witness :
  exists events w',
    analyze_window (conn 23 :: repeat (conn 80) 100) world0
    = (Returns events, w')
    /\ (forall e,
          nth_error (filter (has_reason "Unusual port") events) 0 = Some e ->
          ev_timestamp e = "2025-05-14T12:00:00")
    /\ w_now w' = 2
    /\ (forall e,
          nth_error
            (filter (fun e => negb (has_reason "Unusual port" e)) events) 1
          = Some e ->
          ev_timestamp e = "2025-05-14T12:00:00.000002+00:00").
Proof.
  destruct (event_timestamps (P := host) (conn 23 :: repeat (conn 80) 100) world0)
    as [events [w' [Hrun H]]].
  cbv zeta in H. destruct H as [Hports [Hnow Hthr]].
  exists events, w'. split; [exact Hrun|].
  assert (Hevents : events =
            [unusual_port_event (conn 23);
             threshold_event (P := host) (clock_utc 0) "1.1.1.1" 101
                             "High connection count";
             threshold_event (P := host) (clock_utc 1) "1.1.1.1" 101
                             "High volume to 2.2.2.2"]).
  { assert (Hrun' : analyze_window (conn 23 :: repeat (conn 80) 100) world0 =
              (Returns
                 [unusual_port_event (conn 23);
                  threshold_event (P := host) (clock_utc 0) "1.1.1.1" 101
                                  "High connection count";
                  threshold_event (P := host) (clock_utc 1) "1.1.1.1" 101
                                  "High volume to 2.2.2.2"],
               after_now (P := host) 2 world0)) by reflexivity.
    rewrite Hrun' in Hrun. now inversion Hrun. }
  split; [|split].
  - intros e He. destruct (Hports 0 e He) as [r [Hr ->]].
    inversion Hr. reflexivity.
  - rewrite Hnow, Hevents. reflexivity.
  - intros e He. rewrite (Hthr 1 e He). reflexivity.
Defined.

Lemma tail_log_yields_stripped_lines_witness :
  fst (tail_log [Line ("  a b " +++ PyStr.nl); Line ""; Line ("x" +++ PyStr.nl)])
  = ["a b"; "x"].
Proof.
  destruct (tail_log_yields_stripped_lines
              ["  a b " +++ PyStr.nl; ""; "x" +++ PyStr.nl]) as [H _].
  exact H.
Defined.

(** Against C9 as stated: a line that begins with blanks is yielded
    without them, where removing only the line terminator would keep
    them. *)
Lemma tail_log_strips_leading_blanks :
  fst (tail_log [Line ("  a b " +++ PyStr.nl)]) = ["a b"]
  /\ strip_line_terminators ("  a b " +++ PyStr.nl) = "  a b "
  /\ fst (tail_log [Line ("  a b " +++ PyStr.nl)])
     <> [strip_line_terminators ("  a b " +++ PyStr.nl)].
Proof.
  split; [reflexivity|]. split; [reflexivity|].
  intros H. vm_compute in H. discriminate H.
Qed.



(** *** The scenarios of the specification *)

Example scenario_A :
  parse_line (P := host) "2025-05-14T12:00:00,192.168.0.1,10.0.0.1,80,TCP" world0
  = (Returns (Some (Rec (P := host) noon "192.168.0.1" "10.0.0.1" 80 "TCP")),
     world0)
  /\ analyze_window [Rec (P := host) noon "192.168.0.1" "10.0.0.1" 80 "TCP"]
       world0
     = (Returns [], world0).
Proof. split; reflexivity. Qed.

Example scenario_B :
  analyze_window (repeat (conn 22) 101) world0
  = (Returns
       [Event "2025-05-14T12:00:00.000001+00:00" "1.1.1.1" "" PortBlank ""
              101 "High connection count";
        Event "2025-05-14T12:00:00.000002+00:00" "1.1.1.1" "" PortBlank ""
              101 "High volume to 2.2.2.2"],
     MkWorld [] 2 0 []).
Proof. reflexivity. Qed.

Example scenario_C :
  analyze_window [conn 23] world0
  = (Returns
       [Event "2025-05-14T12:00:00" "1.1.1.1" "2.2.2.2" (PortInt 23) "TCP" 1
              "Unusual port"],
     world0).
Proof. reflexivity. Qed.

Example scenario_D :
  main_step (P := host) ([], 0%Z) "foo,bar" world0
  = (Returns ([], 0%Z),
     MkWorld [(WARNING, "Ogiltigt format, hoppar över: foo,bar")] 0 1 []).
Proof. reflexivity. Qed.

End Runs.

(** ** Runs for the further properties *)

Module MoreRuns.
Import Reference.

Local Abbreviation conn := (connection host noon).

Lemma parse_line_accepts_only_well_formed_witness :
  exists p0 p1 p2 p3 p4,
    PyStr.split "," "2025-05-14T12:00:00, 1.1.1.1,2.2.2.2,80,TCP"
    = [p0; p1; p2; p3; p4]
    /\ PyStr.strip p1 = "1.1.1.1".
Proof.
  destruct (parse_line_accepts_only_well_formed (P := host)
              "2025-05-14T12:00:00, 1.1.1.1,2.2.2.2,80,TCP" world0 world0
              (conn 80) eq_refl)
    as [_ [p0 [p1 [p2 [p3 [p4 [Hsplit [_ [Hsrc _]]]]]]]]].
  exists p0, p1, p2, p3, p4. split; [exact Hsplit|]. now rewrite <- Hsrc.
Defined.

Lemma parse_line_logs_iff_rejects_witness :
  exists rec w',
    parse_line (P := host) "foo,bar" world0 = (Returns rec, w')
    /\ w_now w' = 0 /\ w_time w' = 0 /\ w_ext w' = []
    /\ match rec with
       | Some _ => w_log w' = []
       | None => exists prefix, w_log w' = [] ++ [(WARNING, prefix +++ "foo,bar")]
       end.
Proof.
  exact (parse_line_logs_iff_rejects (P := host) "foo,bar" world0).
Defined.

Lemma stripping_a_line_keeps_its_parse_witness :
  fields (PyStr.strip ("  2025-05-14T12:00:00,a,b,80,TCP " +++ PyStr.nl))
  = ["2025-05-14T12:00:00"; "a"; "b"; "80"; "TCP"].
Proof.
  destruct (stripping_a_line_keeps_its_parse (P := host)
              ("  2025-05-14T12:00:00,a,b,80,TCP " +++ PyStr.nl) world0 world0)
    as [H _].
  rewrite H. reflexivity.
Defined.

Lemma tail_log_stops_at_a_failed_read_witness :
  tail_log [Line ("a" +++ PyStr.nl); Line "";
            ReadRaises (Exception "OSError" "Input/output error");
            Line ("b" +++ PyStr.nl)]
  = (["a"],
     Finished (ERROR, "Fel vid läsning av loggfil: Input/output error")).
Proof.
  exact (tail_log_stops_at_a_failed_read ["a" +++ PyStr.nl; ""]
           (Exception "OSError" "Input/output error")
           [Line ("b" +++ PyStr.nl)]).
Defined.

Lemma blank_line_is_yielded_and_rejected_witness :
  fst (tail_log [Line (" " +++ PyStr.nl)]) = [""]
  /\ parse_line (P := host) "" world0 =
     (Returns None,
      add_log (P := host) (WARNING, "Ogiltigt format, hoppar över: ") world0).
Proof.
  apply (blank_line_is_yielded_and_rejected (P := host) (" " +++ PyStr.nl) world0).
  - reflexivity.
  - discriminate.
Defined.

Lemma tallies_count_every_record_witness :
  Counter.get string_dec
    (fst (fst (fold_left tally [conn 22; conn 80; conn 22]
                 (Counter.empty, Counter.empty, []))))
    "1.1.1.1" = 3
  /\ Counter.get string_dec
       (fst (fst (fold_left tally [conn 22; conn 80; conn 22]
                    (Counter.empty, Counter.empty, []))))
       "9.9.9.9" = 0.
Proof.
  destruct (tallies_count_every_record (P := host) [conn 22; conn 80; conn 22])
    as [Hsrc _].
  split; rewrite Hsrc; reflexivity.
Defined.

Lemma nothing_suspicious_iff_witness :
  (forall r, In r (repeat (conn 80) 100) ->
             in_UNUSUAL_PORTS (rec_port r) = false)
  /\ (forall src, connections (repeat (conn 80) 100) src <= 100).
Proof.
  apply (nothing_suspicious_iff (P := host) (repeat (conn 80) 100) world0).
  reflexivity.
Defined.

Lemma every_event_is_justified_witness :
  exists events w',
    analyze_window (repeat (conn 22) 101) world0 = (Returns events, w')
    /\ forall e, In e events ->
         (exists r, In r (repeat (conn 22) 101)
                    /\ in_UNUSUAL_PORTS (rec_port r) = true
                    /\ e = unusual_port_event r)
         \/ (exists i,
               100 < connections (repeat (conn 22) 101) (ev_src e)
               /\ e = threshold_event (P := host) (utcnow i) (ev_src e)
                        (connections (repeat (conn 22) 101) (ev_src e))
                        "High connection count")
         \/ (exists i dst,
               100 < volume (repeat (conn 22) 101) (ev_src e) dst
               /\ e = threshold_event (P := host) (utcnow i) (ev_src e)
                        (volume (repeat (conn 22) 101) (ev_src e) dst)
                        ("High volume to " +++ dst)).
Proof.
  exact (every_event_is_justified (P := host) (repeat (conn 22) 101) world0).
Defined.

Lemma threshold_events_are_few_witness :
  exists events w',
    analyze_window (repeat (conn 23) 100) world0 = (Returns events, w')
    /\ filter (fun e => negb (has_reason "Unusual port" e)) events = []
    /\ w' = world0.
Proof.
  destruct (threshold_events_are_few (P := host) (repeat (conn 23) 100) world0)
    as [events [w' [Hrun [_ [_ Hsmall]]]]].
  exists events, w'. split; [exact Hrun|].
  apply Hsmall. rewrite repeat_length. lia.
Defined.

Lemma analyze_window_only_reads_the_clock_witness :
  exists events w',
    analyze_window (repeat (conn 22) 101) world0 = (Returns events, w')
    /\ w_log w' = [] /\ w_time w' = 0 /\ w_ext w' = [] /\ 0 <= w_now w'.
Proof.
  exact (analyze_window_only_reads_the_clock (P := host)
           (repeat (conn 22) 101) world0).
Defined.

Lemma send_email_contains_failures_witness :
  send_email (P := rough_host) "IDS Alert: 1 IPs flagged" "1.1.1.1" world0 =
  (Returns tt,
   MkWorld [(ERROR, "Misslyckades skicka mail: Connection refused")] 0 0 []).
Proof.
  destruct (send_email_contains_failures (P := rough_host)
              "IDS Alert: 1 IPs flagged" "1.1.1.1" world0) as [_ H].
  apply (H (Exception "ConnectionRefusedError" "Connection refused") world0);
    reflexivity.
Defined.

Lemma block_ip_contains_failures_witness :
  block_ip (P := rough_host) "1.1.1.1" world0 =
  (Returns tt, MkWorld [(ERROR, "Blockeringsfel: ufw returned 1")] 0 0 []).
Proof.
  destruct (block_ip_contains_failures (P := rough_host) "1.1.1.1" world0)
    as [_ H].
  apply (H (Exception "CalledProcessError" "ufw returned 1") world0);
    reflexivity.
Defined.

Lemma write_report_contains_failures_witness :
  write_report (P := rough_host) [] world0 =
  (Returns tt, MkWorld [(ERROR, "Rapportfel: Permission denied")] 0 0 []).
Proof.
  destruct (write_report_contains_failures (P := rough_host) [] false
              world0 world0 eq_refl) as [_ H].
  apply (H (Exception "PermissionError" "Permission denied") world0);
    reflexivity.
Defined.

Lemma main_loop_raises_no_Exception_witness :
  exists w',
    main_loop (P := interrupted_host)
      ["2025-05-14T12:00:00,1.1.1.1,2.2.2.2,23,TCP"] ([], 0%Z)
      (MkWorld [] 0 1 [])
    = (Raises (BaseException "KeyboardInterrupt"), w')
    /\ isinstance_Exception (BaseException "KeyboardInterrupt") = false.
Proof.
  eexists. split; [reflexivity|].
  eapply (main_loop_raises_no_Exception (P := interrupted_host)
            ["2025-05-14T12:00:00,1.1.1.1,2.2.2.2,23,TCP"] ([], 0%Z)
            (MkWorld [] 0 1 [])).
  reflexivity.
Defined.

Lemma quiet_window_triggers_no_response_witness :
  analyse_and_respond (P := host) (repeat (conn 80) 100) world0 =
  (Returns tt, MkWorld [(INFO, "Inga misstänkta aktiviteter.")] 0 0 []).
Proof.
  apply (quiet_window_triggers_no_response (P := host)
           (repeat (conn 80) 100) world0).
  - intros r Hr. apply repeat_spec in Hr. now subst r.
  - intros src. unfold connections. rewrite map_repeat.
    destruct (string_dec "1.1.1.1" src) as [<-|Hne].
    + rewrite count_occ_repeat_eq by reflexivity. lia.
    + rewrite count_occ_repeat_neq by (intros E; apply Hne; symmetry; exact E).
      lia.
Defined.

Lemma open_window_accumulates_witness :
  exists records w1,
    accept_lines (P := steady_host)
      ["2025-05-14T12:00:00,1.1.1.1,2.2.2.2,80,TCP"; "foo,bar";
       "2025-05-14T12:00:00,1.1.1.1,2.2.2.2,23,TCP"] world0
    = (Returns records, w1)
    /\ main_loop (P := steady_host)
         ["2025-05-14T12:00:00,1.1.1.1,2.2.2.2,80,TCP"; "foo,bar";
          "2025-05-14T12:00:00,1.1.1.1,2.2.2.2,23,TCP"] ([], 0%Z) world0
       = (Returns ([] ++ records, 0%Z), MkWorld (w_log w1) 0 (0 + 3) []).
Proof.
  apply (open_window_accumulates (P := steady_host)
           ["2025-05-14T12:00:00,1.1.1.1,2.2.2.2,80,TCP"; "foo,bar";
            "2025-05-14T12:00:00,1.1.1.1,2.2.2.2,23,TCP"] [] 0%Z world0).
  intros i Hi.
  destruct i as [|[|[|i]]]; [reflexivity | reflexivity | reflexivity |].
  simpl in Hi. lia.
Defined.

Lemma alarms_do_not_depend_on_order_witness :
  exists events w1 events' w1',
    analyze_window (conn 23 :: repeat (conn 80) 101) world0
    = (Returns events, w1)
    /\ analyze_window (repeat (conn 80) 101 ++ [conn 23]) world0
       = (Returns events', w1')
    /\ (forall src cnt reason,
          (exists i, In (threshold_event (P := host) (utcnow i) src cnt reason)
                        events)
          <-> (exists j, In (threshold_event (P := host) (utcnow j) src cnt reason)
                            events'))
    /\ Permutation (filter (has_reason "Unusual port") events)
                   (filter (has_reason "Unusual port") events').
Proof.
  apply (alarms_do_not_depend_on_order (P := host)
           (conn 23 :: repeat (conn 80) 101)
           (repeat (conn 80) 101 ++ [conn 23]) world0 world0).
  apply Permutation_cons_append.
Defined.

Lemma main_stops_cleanly_when_reading_fails_witness :
  main (P := still_host)
    [Line ("2025-05-14T12:00:00,1.1.1.1,2.2.2.2,80,TCP" +++ PyStr.nl);
     ReadRaises (Exception "OSError" "Input/output error");
     Line ("2025-05-14T12:00:01,1.1.1.1,2.2.2.2,80,TCP" +++ PyStr.nl)]
    world0
  = (Returns ([connection still_host noon 80], 0%Z),
     MkWorld [(ERROR, "Fel vid läsning av loggfil: Input/output error")]
             0 2 []).
Proof.
  apply (main_stops_cleanly_when_reading_fails (P := still_host)
           ["2025-05-14T12:00:00,1.1.1.1,2.2.2.2,80,TCP" +++ PyStr.nl]
           (Exception "OSError" "Input/output error")
           [Line ("2025-05-14T12:00:01,1.1.1.1,2.2.2.2,80,TCP" +++ PyStr.nl)]
           ([connection still_host noon 80], 0%Z)
           world0 world0 (MkWorld [] 0 2 [])); reflexivity.
Defined.

End MoreRuns.
